(** * Telemetry synchronisation layer of the enzyme-room frontend

    A shallow embedding of the client-side code that keeps the sensor
    charts up to date: the merge of polled and pushed readings
    ([getChartData] in the SensorMonitoring page), the reconnecting
    WebSocket hook ([useWebSocket]), the polling query functions, the
    room-status mutation and the raw [fetch] calls.

    JavaScript values are modelled as follows.
    - The time value of a [Date] ([getTime()]) is an integer number of
      milliseconds: [Z].  Readings carry a valid time stamp.
    - Sensor values are JS numbers; the merge never inspects them, so
      the type [number] and the division [x / 10] are parameters.
    - [Map<string, T>] is a [gmap string T]; arrays are lists.
    - Strings hold their text as UTF-8 bytes; [s.length] counts UTF-16
      code units ([RawFetch.utf16Length]).
    - The numbers of the pass form are the integers that a double
      holds, the infinities and NaN, and their products and
      differences are rounded as doubles are ([JsNumber]).
    - A socket and a timer of the WebSocket hook carry the counter
      that their handlers closed over, and a change of the counter
      re-runs the hook's effect ([PushChannel]). *)

From Stdlib Require Import ZArith List Lia Sorted Permutation.
From Stdlib Require QArith.
From stdpp Require Import gmap strings list pretty.

Local Open Scope Z_scope.

(** ** Array.prototype helpers used by the pages *)

Module JsArray.
Section Ops.
Context {A : Type}.

(** [arr.findIndex(p)]: index of the first element satisfying [p],
    [-1] when there is none. *)
Fixpoint findIndex (p : A -> bool) (arr : list A) : Z :=
  match arr with
  | [] => -1
  | x :: rest =>
      if p x then 0
      else let i := findIndex p rest in
           if i <? 0 then -1 else i + 1
  end.

(** [arr.filter((item, index, arr) => f(item, index, arr))]; the
    callback receives the element, its index and the whole array. *)
Fixpoint filter_from (f : A -> Z -> list A -> bool) (arr : list A)
    (index : Z) (rest : list A) : list A :=
  match rest with
  | [] => []
  | item :: rest' =>
      if f item index arr
      then item :: filter_from f arr (index + 1) rest'
      else filter_from f arr (index + 1) rest'
  end.

Definition filter_cb (f : A -> Z -> list A -> bool) (arr : list A) : list A :=
  filter_from f arr 0 arr.

(** [arr.slice(start)]: a negative [start] counts from the end and is
    clamped at the beginning of the array; a positive one is clamped
    at its length. *)
Definition slice (start : Z) (arr : list A) : list A :=
  let len := Z.of_nat (length arr) in
  let k := if start <? 0 then Z.max (len + start) 0 else Z.min start len in
  skipn (Z.to_nat k) arr.

(** [arr.sort(cmp)].  The language requires the sort to be stable, and
    for a comparator that is a consistent ordering the stable sorted
    arrangement is unique (lemma [sort_stable_unique] below), so any
    stable algorithm computes it; this one inserts from the right and
    puts an element in front of the elements it compares equal to. *)
Fixpoint insert (cmp : A -> A -> Z) (x : A) (sorted : list A) : list A :=
  match sorted with
  | [] => [x]
  | y :: rest =>
      if cmp x y <=? 0 then x :: y :: rest
      else y :: insert cmp x rest
  end.

Fixpoint sort (cmp : A -> A -> Z) (arr : list A) : list A :=
  match arr with
  | [] => []
  | x :: rest => insert cmp x (sort cmp rest)
  end.
End Ops.
End JsArray.

(** ** The merge buffer (SensorMonitoring page) *)

Module MergeBuffer.
Import JsArray.

Section Merge.
(** JS numbers as far as the sensor values go, with [x / 10]. *)
Context {number : Type}.
Variable div10 : number -> number.
(** [new Date(ms).toLocaleTimeString('ko-KR', {hour, minute})]. *)
Variable toLocaleTimeString : Z -> string.

(** [SensorReading] of the shared schema; [timestamp] is the time
    value that [new Date(r.timestamp)] denotes. *)
Record SensorReading := {
  id : string;
  roomId : string;
  temperature : number;
  humidity : number;
  timestamp : Z
}.

(** [SensorDataPoint] of the shared schema. *)
Record SensorDataPoint := {
  dp_timestamp : Z;
  dp_temperature : number;
  dp_humidity : number
}.

(** One row handed to the chart. *)
Record ChartRow := {
  time : string;
  row_temperature : number;
  row_humidity : number
}.

(** The conversion applied to polled readings in [getChartData] and
    to pushed readings in [onSensorReading]. *)
Definition toDataPoint (r : SensorReading) : SensorDataPoint :=
  {| dp_timestamp := timestamp r;
     dp_temperature := div10 (temperature r);
     dp_humidity := div10 (humidity r) |}.

(** [(a, b) => a.timestamp.getTime() - b.timestamp.getTime()] *)
Definition byTimestamp (a b : SensorDataPoint) : Z :=
  dp_timestamp a - dp_timestamp b.

(** [(item, index, arr) =>
      arr.findIndex(i => i.timestamp.getTime() === item.timestamp.getTime()) === index] *)
Definition firstOccurrence (item : SensorDataPoint) (index : Z)
    (arr : list SensorDataPoint) : bool :=
  findIndex (fun i => dp_timestamp i =? dp_timestamp item) arr =? index.

(** The pipeline of [getChartData] from [dbData] and [wsData] to [unique]. *)
Definition mergePoints (dbData wsData : list SensorDataPoint) : list SensorDataPoint :=
  let combined := sort byTimestamp (dbData ++ wsData) in
  slice (-50) (filter_cb firstOccurrence combined).

(** The local [unique] of [getChartData]. *)
Definition chartPoints (sensorDataMap : gmap string (list SensorDataPoint))
    (room : string) (readings : list SensorReading) : list SensorDataPoint :=
  let wsData := default [] (sensorDataMap !! room) in
  let dbData := map toDataPoint readings in
  mergePoints dbData wsData.

Definition chartRow (d : SensorDataPoint) : ChartRow :=
  {| time := toLocaleTimeString (dp_timestamp d);
     row_temperature := dp_temperature d;
     row_humidity := dp_humidity d |}.

Definition getChartData (sensorDataMap : gmap string (list SensorDataPoint))
    (room : string) (readings : list SensorReading) : list ChartRow :=
  map chartRow (chartPoints sensorDataMap room readings).

(** The [onSensorReading] callback given to [useWebSocket]: append the
    pushed reading to the room's window, keeping the last 49 before it. *)
Definition onSensorReading (reading : SensorReading)
    (prev : gmap string (list SensorDataPoint)) : gmap string (list SensorDataPoint) :=
  let dataPoint := toDataPoint reading in
  let roomData := default [] (prev !! roomId reading) in
  <[roomId reading := slice (-49) roomData ++ [dataPoint]]> prev.

(** *** Reference algorithm

    The merge as the design document words it: concatenate both
    sources, sort ascending by timestamp, remove the entries whose
    timestamp matches a previous entry, keep the most recent [N]. *)

Fixpoint placeAscending (x : SensorDataPoint) (acc : list SensorDataPoint)
    : list SensorDataPoint :=
  match acc with
  | [] => [x]
  | y :: rest =>
      if dp_timestamp y <=? dp_timestamp x then y :: placeAscending x rest
      else x :: y :: rest
  end.

Definition sortAscending (entries : list SensorDataPoint) : list SensorDataPoint :=
  fold_left (fun acc x => placeAscending x acc) entries [].

Fixpoint dropRepeated (previous entries : list SensorDataPoint)
    : list SensorDataPoint :=
  match entries with
  | [] => []
  | e :: rest =>
      if existsb (fun p => dp_timestamp p =? dp_timestamp e) previous
      then dropRepeated (previous ++ [e]) rest
      else e :: dropRepeated (previous ++ [e]) rest
  end.

Definition mostRecent (n : nat) (entries : list SensorDataPoint)
    : list SensorDataPoint :=
  rev (firstn n (rev entries)).

Definition N : nat := 50.

Definition reference_merge (batch liveAppends : list SensorDataPoint)
    : list SensorDataPoint :=
  mostRecent N (dropRepeated [] (sortAscending (batch ++ liveAppends))).

End Merge.
End MergeBuffer.

(** ** The reconnecting push channel ([useWebSocket]) *)

Module PushChannel.

(** *** The reconnection delay *)

(** [Math.min(1000 * Math.pow(2, reconnectAttempts), 30000)].  The
    power of two is exact for every exponent a double can hold, and
    beyond that the minimum is 30000 in both readings. *)
Definition timeout (attempts : nat) : Z :=
  Z.min (1000 * 2 ^ Z.of_nat attempts) 30000.

(** *** Sockets, timers and renders

    The hook keeps [isConnected] and [reconnectAttempts] in state
    cells, the socket made last in [wsRef] and the handle of the timer
    set last in [reconnectTimeoutRef].

    [connect] is a [useCallback] with [reconnectAttempts] among its
    dependencies: a render with another counter makes another
    [connect].  The handlers that a [connect] installs on its socket
    close over the counter of the render that made this [connect], and
    the timer that [ws.onclose] sets calls this same [connect].  A
    socket and a timer therefore carry the counter that their handlers
    read.

    The effect depends on [connect].  When a render has made another
    [connect], the cleanup of the effect runs: it clears the timer in
    [reconnectTimeoutRef] and closes the socket in [wsRef], whose
    handlers stay installed.  Then the effect calls the new [connect].

    The options ([onSensorReading], [onAlert], [onLifecycleUpdate],
    [endpoint]) are taken to be the same values in every render, the
    component stays mounted and [new WebSocket] returns a socket. *)

Inductive ReadyState := CONNECTING | OPEN | CLOSING | CLOSED.

(** A socket made by [connect]: the [reconnectAttempts] that its
    handlers closed over, and its [readyState]. *)
Record Socket := {
  ws_reconnectAttempts : nat;
  readyState : ReadyState
}.

(** A timer set by [ws.onclose]: its delay, the [reconnectAttempts] of
    the [connect] that its callback calls, and whether it has still to
    fire. *)
Record Timer := {
  delay : Z;
  timer_reconnectAttempts : nat;
  pending : bool
}.

(** [rendered] is the counter of the render whose effect ran last: the
    one that the [connect] now in effect closed over.  [wsRef] and
    [reconnectTimeoutRef] hold positions in [sockets] and [timers],
    which list every socket made and every timer set, in order. *)
Record Hook := {
  isConnected : bool;
  reconnectAttempts : nat;
  rendered : nat;
  wsRef : option nat;
  reconnectTimeoutRef : option nat;
  sockets : list Socket;
  timers : list Timer
}.

Definition setSockets (l : list Socket) (h : Hook) : Hook :=
  {| isConnected := isConnected h; reconnectAttempts := reconnectAttempts h;
     rendered := rendered h; wsRef := wsRef h;
     reconnectTimeoutRef := reconnectTimeoutRef h;
     sockets := l; timers := timers h |}.

Definition setTimers (l : list Timer) (h : Hook) : Hook :=
  {| isConnected := isConnected h; reconnectAttempts := reconnectAttempts h;
     rendered := rendered h; wsRef := wsRef h;
     reconnectTimeoutRef := reconnectTimeoutRef h;
     sockets := sockets h; timers := l |}.

Definition setReadyState (ws : nat) (state : ReadyState) (h : Hook) : Hook :=
  match sockets h !! ws with
  | Some s =>
      setSockets (<[ws := {| ws_reconnectAttempts := ws_reconnectAttempts s;
                             readyState := state |}]> (sockets h)) h
  | None => h
  end.

(** The timer has fired or was cleared. *)
Definition spend (t : nat) (h : Hook) : Hook :=
  match timers h !! t with
  | Some tm =>
      setTimers (<[t := {| delay := delay tm;
                           timer_reconnectAttempts := timer_reconnectAttempts tm;
                           pending := false |}]> (timers h)) h
  | None => h
  end.

(** [connect()], as made by a render whose counter is [attempts]:
    [const ws = new WebSocket(wsUrl); wsRef.current = ws], and the
    handlers of [ws] close over [attempts]. *)
Definition connect (attempts : nat) (h : Hook) : Hook :=
  {| isConnected := isConnected h; reconnectAttempts := reconnectAttempts h;
     rendered := rendered h;
     wsRef := Some (length (sockets h));
     reconnectTimeoutRef := reconnectTimeoutRef h;
     sockets := sockets h ++ [{| ws_reconnectAttempts := attempts;
                                 readyState := CONNECTING |}];
     timers := timers h |}.

(** [ws.close()]: a socket that is connecting or open starts to
    close, and its close event follows; on a socket that is closing
    or closed the call does nothing. *)
Definition close (ws : nat) (h : Hook) : Hook :=
  match sockets h !! ws with
  | Some s =>
      match readyState s with
      | CONNECTING | OPEN => setReadyState ws CLOSING h
      | CLOSING | CLOSED => h
      end
  | None => h
  end.

(** [clearTimeout(id)]; clearing a timer that has fired does nothing. *)
Definition clearTimeout (t : nat) (h : Hook) : Hook := spend t h.

(** The cleanup of the effect.  The handle of a timer is never 0 in a
    browser, so [if (reconnectTimeoutRef.current)] succeeds whenever a
    timer was set. *)
Definition cleanup (h : Hook) : Hook :=
  let h := match reconnectTimeoutRef h with
           | Some t => clearTimeout t h
           | None => h
           end in
  match wsRef h with
  | Some ws => close ws h
  | None => h
  end.

(** What React does when a handler has returned and a state cell has
    changed: the component renders again.  If the counter is still the
    one of the last render, [useCallback] returns the same [connect]
    and the effect does not run.  Otherwise the cleanup runs and the
    effect calls the [connect] of this render. *)
Definition render (h : Hook) : Hook :=
  if Nat.eqb (reconnectAttempts h) (rendered h) then h
  else
    let h := cleanup h in
    connect (reconnectAttempts h)
      {| isConnected := isConnected h; reconnectAttempts := reconnectAttempts h;
         rendered := reconnectAttempts h; wsRef := wsRef h;
         reconnectTimeoutRef := reconnectTimeoutRef h;
         sockets := sockets h; timers := timers h |}.

(** Before the first render, and after it: the effect has called
    [connect()] with the counter at 0. *)
Definition initial : Hook :=
  {| isConnected := false; reconnectAttempts := 0; rendered := 0;
     wsRef := None; reconnectTimeoutRef := None; sockets := []; timers := [] |}.

Definition mounted : Hook := connect 0 initial.

(** [ws.onopen]: [setIsConnected(true); setReconnectAttempts(0)]. *)
Definition onopen (h : Hook) : Hook :=
  {| isConnected := true; reconnectAttempts := 0;
     rendered := rendered h; wsRef := wsRef h;
     reconnectTimeoutRef := reconnectTimeoutRef h;
     sockets := sockets h; timers := timers h |}.

(** [ws.onerror] only writes to the console. *)
Definition onerror (h : Hook) : Hook := h.

(** [ws.onclose] of a socket whose handlers closed over [attempts]:
    [setIsConnected(false)], then
    [reconnectTimeoutRef.current = setTimeout(..., timeout)] with the
    delay computed from [attempts]. *)
Definition onclose (attempts : nat) (h : Hook) : Hook :=
  {| isConnected := false; reconnectAttempts := reconnectAttempts h;
     rendered := rendered h; wsRef := wsRef h;
     reconnectTimeoutRef := Some (length (timers h));
     sockets := sockets h;
     timers := timers h ++ [{| delay := timeout attempts;
                               timer_reconnectAttempts := attempts;
                               pending := true |}] |}.

(** The callback of a timer set by a socket whose handlers closed over
    [attempts]: [setReconnectAttempts(prev => prev + 1); connect()],
    where [connect] is the one that made that socket. *)
Definition onReconnectTimer (attempts : nat) (h : Hook) : Hook :=
  connect attempts
    {| isConnected := isConnected h;
       reconnectAttempts := reconnectAttempts h + 1;
       rendered := rendered h; wsRef := wsRef h;
       reconnectTimeoutRef := reconnectTimeoutRef h;
       sockets := sockets h; timers := timers h |}.

(** What the browser can deliver: a connecting socket opens, a socket
    reports an error, a socket that is not yet closed closes, a
    pending timer fires.  [ws] and [t] are positions in [sockets] and
    [timers]. *)
Inductive Event :=
| SocketOpens (ws : nat)
| SocketErrors (ws : nat)
| SocketCloses (ws : nat)
| TimerFires (t : nat).

(** The event runs its handler and React renders; [None] when the
    browser cannot deliver the event in this state. *)
Definition deliver (h : Hook) (e : Event) : option Hook :=
  match e with
  | SocketOpens ws =>
      match sockets h !! ws with
      | Some s =>
          match readyState s with
          | CONNECTING => Some (render (onopen (setReadyState ws OPEN h)))
          | _ => None
          end
      | None => None
      end
  | SocketErrors ws =>
      match sockets h !! ws with
      | Some s => Some (render (onerror h))
      | None => None
      end
  | SocketCloses ws =>
      match sockets h !! ws with
      | Some s =>
          match readyState s with
          | CLOSED => None
          | _ => Some (render (onclose (ws_reconnectAttempts s)
                                 (setReadyState ws CLOSED h)))
          end
      | None => None
      end
  | TimerFires t =>
      match timers h !! t with
      | Some tm =>
          if pending tm
          then Some (render (onReconnectTimer (timer_reconnectAttempts tm)
                               (spend t h)))
          else None
      | None => None
      end
  end.

Fixpoint run (events : list Event) (h : Hook) : option Hook :=
  match events with
  | [] => Some h
  | e :: events =>
      match deliver h e with
      | Some h => run events h
      | None => None
      end
  end.

(** The delays of the [setTimeout] calls, in order. *)
Definition delays (h : Hook) : list Z := map delay (timers h).

End PushChannel.

(** ** Inbound messages ([ws.onmessage]) *)

Module Messages.

(** What the handler can be seen to do: write to the console and call
    the callbacks it was given. *)
Inductive Callback := OnSensorReading | OnAlert | OnLifecycleUpdate.

Section Handler.
(** JS numbers inside a payload; only their truthiness matters here
    ([0], [-0] and [NaN] are falsy). *)
Context {number : Type}.
Variable falsyNumber : number -> bool.

(** The values [JSON.parse] can return, with [undefined] for a
    property that is not there.  An object is the list of its own
    properties, each name once. *)
Local Unset Elimination Schemes.
Inductive JsValue :=
| JUndefined
| JNull
| JBool (b : bool)
| JNumber (n : number)
| JString (s : string)
| JArray (items : list JsValue)
| JObject (props : list (string * JsValue)).
Local Set Elimination Schemes.

(** [JSON.parse(text)]; [None] when it throws a [SyntaxError]. *)
Variable JSON_parse : string -> option JsValue.

Inductive Effect :=
| ConsoleLog (text : string)
| ConsoleError (text : string)
| Called (callback : Callback) (argument : JsValue).

(** A computation that writes effects and either returns a value or
    throws ([None]). *)
Definition Eff (A : Type) : Type := (list Effect * option A)%type.

Definition ret {A} (a : A) : Eff A := ([], Some a).
Definition throw {A} : Eff A := ([], None).
Definition emit (e : Effect) : Eff unit := ([e], Some tt).

Definition bind {A B} (m : Eff A) (k : A -> Eff B) : Eff B :=
  match m with
  | (es, Some a) => let (es', r) := k a in (es ++ es', r)
  | (es, None) => (es, None)
  end.

(** [try { body } catch (error) { handler }] *)
Definition try_catch (body handler : Eff unit) : Eff unit :=
  match body with
  | (es, Some _) => (es, Some tt)
  | (es, None) => let (es', r) := handler in (es ++ es', r)
  end.

Local Notation "'let!' x ':=' m 'in' k" := (bind m (fun x => k))
  (at level 10, x name, m at level 100, k at level 200).

Fixpoint ownProperty (name : string) (props : list (string * JsValue)) : JsValue :=
  match props with
  | [] => JUndefined
  | (k, v) :: rest => if String.eqb k name then v else ownProperty name rest
  end.

(** [value.type] and [value.data]: a [TypeError] on [null] and
    [undefined], the own property of an object, [undefined] on
    anything else (no prototype defines these two names). *)
Definition getProperty (value : JsValue) (name : string) : Eff JsValue :=
  match value with
  | JUndefined | JNull => throw
  | JObject props => ret (ownProperty name props)
  | _ => ret JUndefined
  end.

Definition toBoolean (value : JsValue) : bool :=
  match value with
  | JUndefined | JNull => false
  | JBool b => b
  | JNumber n => negb (falsyNumber n)
  | JString s => negb (String.eqb s "")
  | JArray _ | JObject _ => true
  end.

(** A callback returns or throws; [true] stands for a throw. *)
Definition Handler : Type := JsValue -> bool.

Record UseWebSocketOptions := {
  onSensorReading : option Handler;
  onAlert : option Handler;
  onLifecycleUpdate : option Handler
}.

Definition call (callback : Callback) (f : Handler) (argument : JsValue) : Eff unit :=
  ([Called callback argument], if f argument then None else Some tt).

(** [if (handler && message.data) { handler(message.data) }] *)
Definition dispatch (callback : Callback) (handler : option Handler)
    (message : JsValue) : Eff unit :=
  match handler with
  | None => ret tt
  | Some f =>
      let! data := getProperty message "data" in
      if toBoolean data then call callback f data else ret tt
  end.

(** The type-strict [switch (message.type)]. *)
Definition isString (value : JsValue) (text : string) : bool :=
  match value with
  | JString s => String.eqb s text
  | _ => false
  end.

Definition onmessage (options : UseWebSocketOptions) (event_data : string) : Eff unit :=
  try_catch
    (let! message := match JSON_parse event_data with
                     | Some v => ret v
                     | None => throw
                     end in
     let! type := getProperty message "type" in
     if isString type "sensor_reading" then
       dispatch OnSensorReading (onSensorReading options) message
     else if isString type "alert" then
       dispatch OnAlert (onAlert options) message
     else if isString type "lifecycle_update" then
       dispatch OnLifecycleUpdate (onLifecycleUpdate options) message
     else if isString type "connected" then
       emit (ConsoleLog "WebSocket connection confirmed")
     else ret tt)
    (emit (ConsoleError "Error parsing WebSocket message:")).

(** The handler returned normally. *)
Definition returns (m : Eff unit) : Prop := snd m = Some tt.

Definition isCall (e : Effect) : bool :=
  match e with
  | Called _ _ => true
  | _ => false
  end.

(** No callback was called. *)
Definition callsNothing (m : Eff unit) : Prop :=
  List.filter isCall (fst m) = [].

(** The message's [type], when the parsed value has properties. *)
Definition typeOf (message : JsValue) : JsValue :=
  match message with
  | JObject props => ownProperty "type" props
  | _ => JUndefined
  end.

Definition recognized (type : JsValue) : bool :=
  isString type "sensor_reading" || isString type "alert"
  || isString type "lifecycle_update" || isString type "connected".

(** The text does not parse, or parses to something whose [type] is
    none of the four kinds. *)
Definition malformedOrUnknown (event_data : string) : bool :=
  match JSON_parse event_data with
  | None => true
  | Some message => negb (recognized (typeOf message))
  end.

Definition absent (handler : option Handler) : bool :=
  match handler with
  | None => true
  | Some _ => false
  end.

(** The message is of a kind that has a callback, and the caller of
    the hook did not pass that callback. *)
Definition callbackAbsent (options : UseWebSocketOptions) (event_data : string) : bool :=
  match JSON_parse event_data with
  | None => false
  | Some message =>
      (isString (typeOf message) "sensor_reading" && absent (onSensorReading options))
      || (isString (typeOf message) "alert" && absent (onAlert options))
      || (isString (typeOf message) "lifecycle_update" && absent (onLifecycleUpdate options))
  end.

End Handler.
End Messages.

(** ** The room-status mutation and the query cache (RoomManagement page) *)

Module RequestCache.
Section Cache.
(** Response bodies, the backend behind the API and the errors a
    request rejects with. *)
Context {Value Server Failure : Type}.

(** [apiRequest(method, url, body)] of [lib/queryClient], which is not
    among the sources: a parameter.  It sends the request to the
    backend and resolves with the response or rejects with an error. *)
Variable apiRequest :
  string -> string -> string * option Z -> Server -> Server * (Value + Failure).
(** The default query function: the GET of a query key. *)
Variable fetchKey : string -> Server -> Value + Failure.
(** [isUnauthorizedError] of [lib/authUtils] and [error.message]. *)
Variable isUnauthorizedError : Failure -> bool.
Variable message : Failure -> string.
(** [API_ENDPOINTS.ROOMS.LIST] *)
Variable ROOMS_LIST : string.

Record Toast := {
  title : string;
  description : string;
  variant : option string
}.

Inductive UiEffect :=
| ShowToast (t : Toast)
| InvalidateQueries (queryKey : string)
| RedirectAfter (href : string) (ms : Z).

(** Modelled from the spec: an entry of the request cache, which the
    query library keeps per key: the cached value and whether the key
    has been marked stale. *)
Record Query := {
  data : option Value;
  isInvalidated : bool
}.

Record World := {
  server : Server;
  cache : gmap string Query
}.

(** Modelled from the spec: [invalidate(keySet)] of the request cache
    ([queryClient.invalidateQueries]), "marks the listed keys stale,
    causing the next read to re-fetch". *)
Definition invalidateQueries (queryKey : string) (w : World) : World :=
  {| server := server w;
     cache := alter (fun q => {| data := data q; isInvalidated := true |})
                    queryKey (cache w) |}.

(** Modelled from the spec: [read(key)] of the request cache, "cached
    value or triggers fetch"; a fetch that fails leaves the entry as
    it is. *)
Definition read (queryKey : string) (w : World) : option Value * World :=
  let refetch :=
    match fetchKey queryKey (server w) with
    | inl v =>
        (Some v,
         {| server := server w;
            cache := <[queryKey := {| data := Some v; isInvalidated := false |}]> (cache w) |})
    | inr _ => (cache w !! queryKey ≫= data, w)
    end in
  match cache w !! queryKey with
  | Some q => if isInvalidated q then refetch
              else match data q with
                   | Some v => (Some v, w)
                   | None => refetch
                   end
  | None => refetch
  end.

(** The variables of [updateRoomStatusMutation]. *)
Record StatusChange := {
  roomId : string;
  status : string;
  cooldownUntil : option Z
}.

(** [mutationFn] *)
Definition mutationFn (vars : StatusChange) (srv : Server) : Server * (Value + Failure) :=
  apiRequest "PATCH" ("/api/rooms/" ++ roomId vars ++ "/status")%string
             (status vars, cooldownUntil vars) srv.

(** [onSuccess] *)
Definition onSuccess (w : World) : World * list UiEffect :=
  (invalidateQueries ROOMS_LIST w,
   [ShowToast {| title := "관 상태 업데이트";
                 description := "관 상태가 성공적으로 업데이트되었습니다.";
                 variant := None |};
    InvalidateQueries ROOMS_LIST]).

(** [onError] *)
Definition onError (error : Failure) (w : World) : World * list UiEffect :=
  if isUnauthorizedError error then
    (w, [ShowToast {| title := "Unauthorized";
                      description := "You are logged out. Logging in again...";
                      variant := Some "destructive" |};
         RedirectAfter "/api/login" 500])
  else
    (w, [ShowToast {| title := "업데이트 실패";
                      description := if String.eqb (message error) ""
                                     then "관 상태 업데이트에 실패했습니다."
                                     else message error;
                      variant := Some "destructive" |}]).

(** Modelled from the spec: [mutate] of the mutation library, which
    runs [mutationFn] and then [onSuccess] if it resolved, [onError]
    with the error if it rejected. *)
Definition mutate (vars : StatusChange) (w : World) : World * list UiEffect :=
  let (srv', result) := mutationFn vars (server w) in
  let w' := {| server := srv'; cache := cache w |} in
  match result with
  | inl _ => onSuccess w'
  | inr error => onError error w'
  end.

(** [handleStatusChange(roomId, newStatus)] at the time [now]. *)
Definition handleStatusChange (now : Z) (room newStatus : string) (w : World)
    : World * list UiEffect :=
  let cooldown :=
    if String.eqb newStatus "cooldown" then Some (now + 4 * 60 * 60 * 1000) else None in
  mutate {| roomId := room; status := newStatus; cooldownUntil := cooldown |} w.

(** The mutation's request resolved. *)
Definition succeeded (vars : StatusChange) (w : World) : bool :=
  match snd (mutationFn vars (server w)) with
  | inl _ => true
  | inr _ => false
  end.

Definition invalidates (queryKey : string) (e : UiEffect) : bool :=
  match e with
  | InvalidateQueries k => String.eqb k queryKey
  | _ => false
  end.

Definition isErrorToast (e : UiEffect) : bool :=
  match e with
  | ShowToast t => match variant t with
                   | Some v => String.eqb v "destructive"
                   | None => false
                   end
  | _ => false
  end.

End Cache.
End RequestCache.

(** ** The polling query functions (CustomerApp and SensorMonitoring) *)

Module Polling.

(** [fetch(url)]: the promise rejects on a network error, or resolves
    with a response that has an [ok] flag and a body; [json] is [None]
    when [response.json()] rejects. *)
Inductive FetchResult (Body : Type) :=
| NetworkError
| Response (ok : bool) (json : option Body).
Arguments NetworkError {Body}.
Arguments Response {Body} ok json.

(** A settled promise. *)
Inductive Settled (A : Type) :=
| Resolved (value : A)
| Rejected.
Arguments Resolved {A} value.
Arguments Rejected {A}.

(** The request did not produce a success response. *)
Definition failed {Body : Type} (r : FetchResult Body) : bool :=
  match r with
  | NetworkError => true
  | Response ok _ => negb ok
  end.

(** The promise built from the request rejects: the network failed, or
    the body of a success response is not JSON. *)
Definition rejects {Body : Type} (r : FetchResult Body) : bool :=
  match r with
  | NetworkError => true
  | Response ok json => ok && match json with None => true | Some _ => false end
  end.

(** [Promise.all]: the values in order, or a rejection if one of the
    promises rejects. *)
Fixpoint Promise_all {A : Type} (promises : list (Settled A)) : Settled (list A) :=
  match promises with
  | [] => Resolved []
  | Resolved v :: rest =>
      match Promise_all rest with
      | Resolved vs => Resolved (v :: vs)
      | Rejected => Rejected
      end
  | Rejected :: _ => Rejected
  end.

(** *** A polled query *)

(** Modelled from the spec: the state the query library keeps for a
    polled key: the cached value, the consecutive failures and the
    time of the next interval tick. *)
Record Polled (A : Type) := {
  data : option A;
  failureCount : nat;
  nextFetchAt : Z
}.
Arguments data {A} _.
Arguments failureCount {A} _.
Arguments nextFetchAt {A} _.

(** Modelled from the spec: one interval tick of a polled query with
    [enabled] and a constant [refetchInterval]: the query function
    runs; a resolved value replaces the cached one, a rejection
    leaves it in place; the next tick is one interval later. *)
Definition tick {A : Type} (enabled : bool) (refetchInterval : Z)
    (queryFn : Settled A) (now : Z) (q : Polled A) : Polled A :=
  if enabled then
    match queryFn with
    | Resolved v =>
        {| data := Some v; failureCount := 0; nextFetchAt := now + refetchInterval |}
    | Rejected =>
        {| data := data q; failureCount := S (failureCount q);
           nextFetchAt := now + refetchInterval |}
    end
  else q.

Section Fetchers.
Context {Room Reading Lifecycle : Type}.
(** [room.id] *)
Variable id : Room -> string.

(** *** CustomerApp: the latest reading of each room, every 10 s *)

(** [QUERY_HELPERS.sensorsByRoom(roomId, limit)] *)
Variable sensorsByRoom : string -> Z -> string.

Record RoomReading := {
  roomId : string;
  reading : option Reading
}.

(** The body of [rooms.map(async (room) => { try { ... } catch { ... } })]. *)
Definition latestOf (fetch : string -> FetchResult (list Reading)) (room : Room)
    : Settled RoomReading :=
  match fetch (sensorsByRoom (id room) 1) with
  | Response true (Some readings) =>
      Resolved {| roomId := id room;
                  reading := match readings with
                             | r :: _ => Some r
                             | [] => None
                             end |}
  | Response true None => Resolved {| roomId := id room; reading := None |}
  | Response false _ => Resolved {| roomId := id room; reading := None |}
  | NetworkError => Resolved {| roomId := id room; reading := None |}
  end.

Definition customerQueryFn (fetch : string -> FetchResult (list Reading))
    (rooms : list Room) : Settled (list RoomReading) :=
  Promise_all (map (latestOf fetch) rooms).

Definition customerRefetchInterval : Z := 10000.

(** *** SensorMonitoring: readings and lifecycle of each room, every 30 s *)

(** The body of [/api/rooms/:id/sensor-data]. *)
Record RoomWithSensorData := {
  sensorReadings : list Reading;
  lifecycle : option Lifecycle
}.

Record RoomSensorData := {
  room : Room;
  latestReading : option Reading;
  rsd_lifecycle : option Lifecycle;
  readings : list Reading
}.

(** [fetch(url).then(r => r.ok ? r.json() : otherwise)] *)
Definition jsonOr {Body A : Type} (some : Body -> A) (otherwise : A)
    (r : FetchResult Body) : Settled A :=
  match r with
  | NetworkError => Rejected
  | Response true (Some body) => Resolved (some body)
  | Response true None => Rejected
  | Response false _ => Resolved otherwise
  end.

Definition sensorDataOf
    (fetchSensorData : string -> FetchResult RoomWithSensorData)
    (fetchReadings : string -> FetchResult (list Reading))
    (r : Room) : Settled RoomSensorData :=
  match jsonOr Some None (fetchSensorData ("/api/rooms/" ++ id r ++ "/sensor-data")%string),
        jsonOr (fun l => l) [] (fetchReadings ("/api/sensor/readings/" ++ id r ++ "?limit=50")%string) with
  | Resolved roomWithData, Resolved readings =>
      Resolved {| room := r;
                  latestReading := roomWithData ≫= (fun d => head (sensorReadings d));
                  rsd_lifecycle := roomWithData ≫= lifecycle;
                  readings := readings |}
  | _, _ => Rejected
  end.

Definition monitoringQueryFn
    (fetchSensorData : string -> FetchResult RoomWithSensorData)
    (fetchReadings : string -> FetchResult (list Reading))
    (rooms : list Room) : Settled (list RoomSensorData) :=
  Promise_all (map (sensorDataOf fetchSensorData fetchReadings) rooms).

Definition monitoringRefetchInterval : Z := 30000.

(** *** The two polled queries *)

(** [enabled: rooms.length > 0] *)
Definition enabled (rooms : list Room) : bool :=
  0 <? Z.of_nat (length rooms).

Definition customerTick (fetch : string -> FetchResult (list Reading))
    (rooms : list Room) (now : Z) (q : Polled (list RoomReading))
    : Polled (list RoomReading) :=
  tick (enabled rooms) customerRefetchInterval (customerQueryFn fetch rooms) now q.

Definition monitoringTick
    (fetchSensorData : string -> FetchResult RoomWithSensorData)
    (fetchReadings : string -> FetchResult (list Reading))
    (rooms : list Room) (now : Z) (q : Polled (list RoomSensorData))
    : Polled (list RoomSensorData) :=
  tick (enabled rooms) monitoringRefetchInterval
       (monitoringQueryFn fetchSensorData fetchReadings rooms) now q.

End Fetchers.
End Polling.

(** ** Requests sent with [fetch] directly (SensorMonitoring and CustomerApp pages) *)

Module RawFetch.

(** The arguments of a [fetch] call: the URL and the [init] object.
    The body is the object given to [JSON.stringify]. *)
Record Request := {
  method : string;
  url : string;
  headers : list (string * string);
  body : option (list (string * string))
}.

(** What a page sees of the call: the promise rejects, or resolves with
    a response; [json] is [None] when [response.json()] rejects. *)
Inductive FetchResult (Json : Type) :=
| NetworkError
| Response (ok : bool) (json : option Json).
Arguments NetworkError {Json}.
Arguments Response {Json} ok json.

(** The value of the request's [Authorization] header. *)
Definition authorization (req : Request) : option string :=
  snd <$> List.find (fun h => String.eqb (fst h) "Authorization") (headers req).

(** The request carries the credential of the session as a bearer
    token; [session] is the access token of the identity provider's
    current session, [None] when nobody is signed in. *)
Definition carriesBearer (session : option string) (req : Request) : bool :=
  match session, authorization req with
  | Some token, Some value => String.eqb value ("Bearer " ++ token)
  | _, _ => false
  end.

(** Strings hold their text as UTF-8 bytes, and [s.length] counts
    UTF-16 code units: one for a character up to U+FFFF, which takes
    one to three bytes, and two for a character beyond, which takes
    four.  So a leading byte counts for the whole character and a
    continuation byte (10xxxxxx) for nothing. *)
Definition codeUnits (byte : Ascii.ascii) : nat :=
  let n := Ascii.N_of_ascii byte in
  if (n <? 128)%N then 1
  else if (n <? 192)%N then 0
  else if (n <? 240)%N then 1
  else 2.

Fixpoint utf16Length (s : string) : nat :=
  match s with
  | EmptyString => 0
  | String byte rest => codeUnits byte + utf16Length rest
  end.

Section Pages.
Context {Alert Customer Json : Type}.
(** [a.id] *)
Variable id : Alert -> string.
(** [API_ENDPOINTS.CUSTOMERS.VERIFY_PIN] *)
Variable VERIFY_PIN : string.
(** The response body read as a customer, and
    [errorData.error || errorData.message] (empty when both are
    missing). *)
Variable asCustomer : Json -> Customer.
Variable errorText : Json -> string.

(** [dismissAlert(alertId)] of SensorMonitoring: the requests it
    sends and the alerts it leaves on the page. *)
Definition dismissAlert (fetch : Request -> FetchResult Json)
    (alertId : string) (alerts : list Alert) : list Request * list Alert :=
  let req := {| method := "PATCH";
                url := "/api/alerts/" ++ alertId ++ "/dismiss";
                headers := [];
                body := None |} in
  match fetch req with
  | NetworkError => ([req], alerts)
  | Response _ _ =>
      ([req], List.filter (fun a => negb (String.eqb (id a) alertId)) alerts)
  end.

(** The state cells of CustomerApp that [handlePhoneSearch] touches.
    The two inputs take any text. *)
Record CustomerAppState := {
  customerPhone : string;
  customerPin : string;
  pinError : string;
  currentCustomer : option Customer
}.

Definition setPinError (text : string) (st : CustomerAppState) : CustomerAppState :=
  {| customerPhone := customerPhone st; customerPin := customerPin st;
     pinError := text; currentCustomer := currentCustomer st |}.

Definition setCurrentCustomer (c : option Customer) (st : CustomerAppState)
    : CustomerAppState :=
  {| customerPhone := customerPhone st; customerPin := customerPin st;
     pinError := pinError st; currentCustomer := c |}.

(** [handlePhoneSearch()]: the requests it sends and the new state. *)
Definition handlePhoneSearch (fetch : Request -> FetchResult Json)
    (st : CustomerAppState) : list Request * CustomerAppState :=
  if Z.of_nat (utf16Length (customerPhone st)) <? 10 then
    ([], setPinError "전화번호를 입력해주세요" st)
  else if negb (Z.of_nat (utf16Length (customerPin st)) =? 4) then
    ([], setPinError "PIN 4자리를 입력해주세요" st)
  else
    let st := setPinError "" st in
    let req := {| method := "POST";
                  url := VERIFY_PIN;
                  headers := [("Content-Type", "application/json")];
                  body := Some [("phone", customerPhone st); ("pin", customerPin st)] |} in
    match fetch req with
    | Response true (Some customer) =>
        ([req], setPinError "" (setCurrentCustomer (Some (asCustomer customer)) st))
    | Response false (Some errorData) =>
        ([req],
         setCurrentCustomer None
           (setPinError (if String.eqb (errorText errorData) ""
                         then "인증에 실패했습니다"
                         else errorText errorData) st))
    | Response _ None | NetworkError =>
        ([req], setCurrentCustomer None (setPinError "서버 오류가 발생했습니다" st))
    end.

End Pages.
End RawFetch.

(** ** Sample inputs *)

Module Samples.

(** Sensor values as rationals, with the exact tenth. *)
Definition tenth (x : QArith_base.Q) : QArith_base.Q :=
  QArith_base.Qdiv x (QArith_base.Qmake 10 1).

(** A historical reading of room R at time 200 (36.5 degrees, 60 %),
    and a pushed point with the same timestamp and other values. *)
Definition historical : @MergeBuffer.SensorReading QArith_base.Q :=
  {| MergeBuffer.id := "h1"; MergeBuffer.roomId := "R";
     MergeBuffer.temperature := QArith_base.Qmake 365 1;
     MergeBuffer.humidity := QArith_base.Qmake 600 1;
     MergeBuffer.timestamp := 200 |}.

Definition live : @MergeBuffer.SensorDataPoint QArith_base.Q :=
  {| MergeBuffer.dp_timestamp := 200;
     MergeBuffer.dp_temperature := QArith_base.Qmake 99 1;
     MergeBuffer.dp_humidity := QArith_base.Qmake 10 1 |}.

Definition liveWindow : gmap string (list (@MergeBuffer.SensorDataPoint QArith_base.Q)) :=
  {[ "R"%string := [live] ]}.

(** A parser that knows two texts. *)
Definition parse (text : string) : option (@Messages.JsValue Z) :=
  if String.eqb text "unexpected" then
    Some (Messages.JObject [("type"%string, Messages.JString "unexpected_kind")])
  else if String.eqb text "reading" then
    Some (Messages.JObject
            [("type"%string, Messages.JString "sensor_reading");
             ("data"%string, Messages.JObject [("temperature"%string, Messages.JNumber 365)])])
  else None.

Definition everyCallback : @Messages.UseWebSocketOptions Z :=
  {| Messages.onSensorReading := Some (fun _ => false);
     Messages.onAlert := Some (fun _ => false);
     Messages.onLifecycleUpdate := Some (fun _ => false) |}.

Definition noCallback : @Messages.UseWebSocketOptions Z :=
  {| Messages.onSensorReading := None;
     Messages.onAlert := None;
     Messages.onLifecycleUpdate := None |}.

(** A stub backend that holds the status of one room: a PATCH stores
    the status it is given, the rooms list shows the status held. *)
Definition stubRequest (method url : string) (body : string * option Z)
    (held : string) : string * (string + string) :=
  if String.eqb method "PATCH" then (fst body, inl (fst body))
  else (held, inr "unsupported"%string).

(** A backend that rejects every mutation. *)
Definition rejectingRequest (method url : string) (body : string * option Z)
    (held : string) : string * (string + string) :=
  (held, inr "rejected"%string).

Definition stubRooms (queryKey : string) (held : string) : string + string :=
  inl held.

Definition cachedAvailable : @RequestCache.World string string :=
  {| RequestCache.server := "available"%string;
     RequestCache.cache :=
       {[ "rooms"%string := {| RequestCache.data := Some "available"%string;
                               RequestCache.isInvalidated := false |} ]} |}.

Definition occupy : RequestCache.StatusChange :=
  {| RequestCache.roomId := "R"; RequestCache.status := "occupied";
     RequestCache.cooldownUntil := None |}.

(** A sensor endpoint that answers 404, and a poll that had cached a
    reading for room R. *)
Definition notFound {Body : Type} (url : string) : Polling.FetchResult Body :=
  Polling.Response false None.

Definition unreachable {Body : Type} (url : string) : Polling.FetchResult Body :=
  Polling.NetworkError.

Definition cachedReading : Polling.Polled (list (@Polling.RoomReading Z)) :=
  {| Polling.data := Some [{| Polling.roomId := "R"%string; Polling.reading := Some 365 |}];
     Polling.failureCount := 0;
     Polling.nextFetchAt := 10000 |}.

Definition cachedMonitoring
    : Polling.Polled (list (@Polling.RoomSensorData string Z unit)) :=
  {| Polling.data := None; Polling.failureCount := 0; Polling.nextFetchAt := 30000 |}.

Definition sensorsUrl (room : string) (limit : Z) : string := room.

(** The customer has typed a phone number and a PIN. *)
Definition typed : @RawFetch.CustomerAppState unit :=
  {| RawFetch.customerPhone := "01012345678"; RawFetch.customerPin := "1234";
     RawFetch.pinError := ""; RawFetch.currentCustomer := None |}.

(** Seven full-width digits typed as the phone number: 21 bytes, and
    the length 7. *)
Definition typedFullWidth : @RawFetch.CustomerAppState unit :=
  {| RawFetch.customerPhone := "０１０１２３４"; RawFetch.customerPin := "1234";
     RawFetch.pinError := ""; RawFetch.currentCustomer := None |}.

Definition offline (req : RawFetch.Request) : RawFetch.FetchResult unit :=
  RawFetch.NetworkError.

End Samples.

(** ** Event traces of the push channel *)

Module PushChannelTraces.
Import PushChannel.

Definition isOpen (e : Event) : bool :=
  match e with SocketOpens _ => true | _ => false end.
Definition isClose (e : Event) : bool :=
  match e with SocketCloses _ => true | _ => false end.
Definition isTimer (e : Event) : bool :=
  match e with TimerFires _ => true | _ => false end.

(** How many sockets opened, how many closed, and how many
    reconnection timers fired. *)
Definition opens (events : list Event) : nat :=
  length (List.filter isOpen events).
Definition closes (events : list Event) : nat :=
  length (List.filter isClose events).
Definition timerFirings (events : list Event) : nat :=
  length (List.filter isTimer events).

(** The delay lies between one and thirty seconds. *)
Definition inRange (delay : Z) : Prop := 1000 <= delay <= 30000.

(** The server refuses every connection.  The socket of the mount
    effect (0) closes and its timer (0) fires after 1000 ms; the
    callback makes socket 1 and the render that follows closes it and
    makes socket 2.  Socket 1 reports its close and sets timer 1,
    socket 2 is refused and sets timer 2.  Timer 1 is due first; its
    callback makes socket 3, the render clears timer 2, closes socket
    3 and makes socket 4; both close. *)
Definition refused : list Event :=
  [SocketCloses 0; TimerFires 0; SocketCloses 1; SocketCloses 2;
   TimerFires 1; SocketCloses 3; SocketCloses 4].

(** The first connection is refused and the server is back when the
    hook connects again: socket 0 closes, timer 0 fires, socket 1
    (made by the timer's callback and closed by the render) reports
    its close, and socket 2 opens. *)
Definition reopened : list Event :=
  [SocketCloses 0; TimerFires 0; SocketCloses 1; SocketOpens 2].

End PushChannelTraces.

(** ** The kinds of message that have a callback *)

Module MessageKinds.
Import Messages.

(** The [type] a callback is registered for. *)
Definition kindName (c : Callback) : string :=
  match c with
  | OnSensorReading => "sensor_reading"
  | OnAlert => "alert"
  | OnLifecycleUpdate => "lifecycle_update"
  end.

(** The callback of that kind among the hook's options. *)
Definition registered {number : Type} (options : @UseWebSocketOptions number)
    (c : Callback) : option (@Handler number) :=
  match c with
  | OnSensorReading => onSensorReading options
  | OnAlert => onAlert options
  | OnLifecycleUpdate => onLifecycleUpdate options
  end.

End MessageKinds.

(** ** WebSocket endpoints ([lib/apiEndpoints]) *)

Module Endpoints.

(** [s] without the prefix [p], when it starts with it. *)
Fixpoint stripPrefix (p s : string) : option string :=
  match p, s with
  | EmptyString, _ => Some s
  | String a p', String b s' => if Ascii.eqb a b then stripPrefix p' s' else None
  | String _ _, EmptyString => None
  end.

(** [base.replace(/^https?:\/\//, '')]: the pattern is anchored at the
    start, so at most the leading scheme goes. *)
Definition stripScheme (base : string) : string :=
  match stripPrefix "https://" base with
  | Some rest => rest
  | None =>
      match stripPrefix "http://" base with
      | Some rest => rest
      | None => base
      end
  end.

(** [DJANGO_API_BASE]: the first of the two environment variables that
    is set and not empty, else the local backend. *)
Definition DJANGO_API_BASE (VITE_API_URL VITE_DJANGO_API_URL : option string) : string :=
  let truthy (v : option string) :=
    match v with
    | Some text => negb (String.eqb text "")
    | None => false
    end in
  if truthy VITE_API_URL then default ""%string VITE_API_URL
  else if truthy VITE_DJANGO_API_URL then default ""%string VITE_DJANGO_API_URL
  else "http://localhost:8000"%string.

(** [API_ENDPOINTS.WEBSOCKET.SENSORS()] and [ALERTS()], given
    [window.location.protocol] and the API base. *)
Definition WEBSOCKET_SENSORS (protocol base : string) : string :=
  ((if String.eqb protocol "https:" then "wss:" else "ws:")
   ++ "//" ++ stripScheme base ++ "/ws/sensors/")%string.

Definition WEBSOCKET_ALERTS (protocol base : string) : string :=
  ((if String.eqb protocol "https:" then "wss:" else "ws:")
   ++ "//" ++ stripScheme base ++ "/ws/alerts/")%string.

(** The URL [connect] opens: [endpoint === 'sensors' ? SENSORS() : ALERTS()]. *)
Definition wsUrl (endpoint protocol base : string) : string :=
  if String.eqb endpoint "sensors" then WEBSOCKET_SENSORS protocol base
  else WEBSOCKET_ALERTS protocol base.

End Endpoints.

(** ** Room helpers (RoomManagement and CustomerApp pages) *)

Module Rooms.

(** The fields of [Room] the helpers read; [cooldownUntil] is the time
    value of the date, [None] when the field is null. *)
Record Room := {
  id : string;
  name : string;
  status : string;
  cooldownUntil : option Z
}.

(** [getRemainingCooldown(room)] of RoomManagement at the time [now].
    The quotients are those of [Math.floor] on a positive
    difference. *)
Definition getRemainingCooldown (now : Z) (room : Room) : string :=
  match negb (String.eqb (status room) "cooldown"), cooldownUntil room with
  | true, _ | _, None => ""
  | false, Some cooldownEnd =>
      let diff := cooldownEnd - now in
      if diff <=? 0 then "완료"
      else
        let hours := diff / (1000 * 60 * 60) in
        let minutes := (diff mod (1000 * 60 * 60)) / (1000 * 60) in
        (pretty hours ++ "시간 " ++ pretty minutes ++ "분 남음")%string
  end.

(** [getAvailableRooms()] and [getOccupiedRooms()] of CustomerApp. *)
Definition getAvailableRooms (rooms : list Room) : nat :=
  length (List.filter (fun room => String.eqb (status room) "available") rooms).

Definition getOccupiedRooms (rooms : list Room) : nat :=
  length (List.filter (fun room => String.eqb (status room) "occupied") rooms).

End Rooms.

(** ** Bookings and sensor entries of the signed-in customer (CustomerApp) *)

Module CustomerPage.

Record Customer := {
  id : string
}.

Record Booking := {
  b_id : string;
  customerId : string;
  status : string
}.

(** [getMyTodayBookings()] *)
Definition getMyTodayBookings (currentCustomer : option Customer)
    (todayBookings : list Booking) : list Booking :=
  match currentCustomer with
  | None => []
  | Some c => List.filter (fun booking => String.eqb (customerId booking) (id c)) todayBookings
  end.

(** [getCurrentBooking()]; [null] and [undefined] are both [None]. *)
Definition getCurrentBooking (currentCustomer : option Customer)
    (todayBookings : list Booking) : option Booking :=
  match currentCustomer with
  | None => None
  | Some c =>
      List.find (fun booking => String.eqb (customerId booking) (id c)
                                && String.eqb (status booking) "in_progress")
                todayBookings
  end.

(** In the room cards:
    [roomsSensorData.find(s => s.roomId === room.id)?.reading]. *)
Definition readingFor {Reading : Type}
    (roomsSensorData : list (@Polling.RoomReading Reading)) (roomId : string)
    : option Reading :=
  List.find (fun s => String.eqb (Polling.roomId s) roomId) roomsSensorData
  ≫= Polling.reading.

End CustomerPage.

(** ** The sensor cards (SensorMonitoring) *)

Module SensorCards.
Section Cards.
Context {number Room Lifecycle : Type}.
Variable div10 : number -> number.
Variable toLocaleTimeString : Z -> string.
(** [room.id] *)
Variable id : Room -> string.

(** [latestReading ? getChartData(room.id, readings) : []] *)
Definition chartData (sensorDataMap : gmap string (list (@MergeBuffer.SensorDataPoint number)))
    (entry : @Polling.RoomSensorData Room (@MergeBuffer.SensorReading number) Lifecycle)
    : list (@MergeBuffer.ChartRow number) :=
  match Polling.latestReading entry with
  | Some _ =>
      MergeBuffer.getChartData div10 toLocaleTimeString sensorDataMap
        (id (Polling.room entry)) (Polling.readings entry)
  | None => []
  end.

End Cards.

(** The live windows after a series of pushed readings, oldest first. *)
Definition pushAll {number : Type} (div10 : number -> number)
    (readings : list (@MergeBuffer.SensorReading number))
    (sensorDataMap : gmap string (list (@MergeBuffer.SensorDataPoint number)))
    : gmap string (list (@MergeBuffer.SensorDataPoint number)) :=
  fold_left (fun m r => MergeBuffer.onSensorReading div10 r m) readings sensorDataMap.

End SensorCards.

(** ** JavaScript numbers with integer values *)

Module JsNumber.

(** The pass form computes with the value that [parseInt] returns and
    with integer constants: every number it meets is an integer that a
    double holds, an infinity, or NaN.  The two zeros are not told
    apart; the form has no operation that distinguishes them. *)
Inductive number :=
| NaN
| Infinity (negative : bool)
| Int (z : Z).

(** The double nearest to the integer [x >= 0], a tie going to the
    even significand of 53 bits. *)
Definition nearest (x : Z) : Z :=
  if x <? 2 ^ 53 then x
  else
    let e := Z.log2 x - 52 in
    let q := x / 2 ^ e in
    let r := x mod 2 ^ e in
    let half := 2 ^ (e - 1) in
    if (half <? r) || ((r =? half) && Z.odd q)
    then (q + 1) * 2 ^ e
    else q * 2 ^ e.

(** The number that holds the exact integer result [x] of an
    operation: the nearest double, and an infinity from 2^1024 on. *)
Definition round (x : Z) : number :=
  let m := nearest (Z.abs x) in
  if 2 ^ 1024 <=? m then Infinity (x <? 0) else Int (Z.sgn x * m).

(** [a * b] *)
Definition mul (a b : number) : number :=
  match a, b with
  | NaN, _ => NaN
  | _, NaN => NaN
  | Int x, Int y => round (x * y)
  | Infinity s, Int y => if y =? 0 then NaN else Infinity (xorb s (y <? 0))
  | Int x, Infinity s => if x =? 0 then NaN else Infinity (xorb s (x <? 0))
  | Infinity s, Infinity s' => Infinity (xorb s s')
  end.

(** [a - b] *)
Definition sub (a b : number) : number :=
  match a, b with
  | NaN, _ => NaN
  | _, NaN => NaN
  | Int x, Int y => round (x - y)
  | Infinity s, Infinity s' => if Bool.eqb s s' then NaN else Infinity s
  | Infinity s, Int _ => Infinity s
  | Int _, Infinity s => Infinity (negb s)
  end.

(** [Math.max(a, b)] *)
Definition max (a b : number) : number :=
  match a, b with
  | NaN, _ => NaN
  | _, NaN => NaN
  | Infinity false, _ => Infinity false
  | _, Infinity false => Infinity false
  | Infinity true, _ => b
  | _, Infinity true => a
  | Int x, Int y => Int (Z.max x y)
  end.

(** The number counts as true in [a || b]: it is neither zero nor NaN. *)
Definition truthy (a : number) : bool :=
  match a with
  | NaN => false
  | Infinity _ => true
  | Int z => negb (z =? 0)
  end.

(** [a === b] *)
Definition strictEquals (a b : number) : bool :=
  match a, b with
  | Int x, Int y => x =? y
  | Infinity s, Infinity s' => Bool.eqb s s'
  | _, _ => false
  end.

(** A number as a double holds it. *)
Definition canonical (a : number) : number :=
  match a with
  | Int z => round z
  | _ => a
  end.

End JsNumber.

(** ** The pass form (PassManagement) *)

Module PassForm.
Import JsNumber.

(** What a field of the form holds: a number that the page has set, or
    the text of the input when the field's own [onChange] took the
    change event. *)
Inductive FieldValue :=
| Number (value : number)
| Text (value : string).

Record FormValues := {
  customerPhone : string;
  passType : string;
  totalSessions : number;
  remainingSessions : number;
  purchasePrice : FieldValue;
  isActive : bool
}.

Definition defaultValues : FormValues :=
  {| customerPhone := ""; passType := "membership"; totalSessions := Int 10;
     remainingSessions := Int 10; purchasePrice := Number (Int 270000);
     isActive := true |}.

(** [Math.max(27000, 300000 - (sessions * 3000))] *)
Definition pricePerSession (sessions : number) : number :=
  max (Int 27000) (sub (Int 300000) (mul sessions (Int 3000))).

Definition setPrice (price : FieldValue) (form : FormValues) : FormValues :=
  {| customerPhone := customerPhone form; passType := passType form;
     totalSessions := totalSessions form; remainingSessions := remainingSessions form;
     purchasePrice := price; isActive := isActive form |}.

(** [handlePassTypeChange(passType)] *)
Definition handlePassTypeChange (newType : string) (form : FormValues) : FormValues :=
  if String.eqb newType "day_pass" then
    {| customerPhone := customerPhone form; passType := passType form;
       totalSessions := Int 1; remainingSessions := Int 1;
       purchasePrice := Number (Int 40000);
       isActive := isActive form |}
  else
    let sessions :=
      if truthy (totalSessions form) then totalSessions form else Int 10 in
    setPrice (Number (mul sessions (pricePerSession sessions))) form.

(** [handleSessionsChange(sessions)] *)
Definition handleSessionsChange (sessions : number) (form : FormValues) : FormValues :=
  let form :=
    if String.eqb (passType form) "membership"
    then setPrice (Number (mul sessions (pricePerSession sessions))) form
    else form in
  {| customerPhone := customerPhone form; passType := passType form;
     totalSessions := totalSessions form; remainingSessions := sessions;
     purchasePrice := purchasePrice form; isActive := isActive form |}.

(** What the user can do in the dialog: type a phone number, pick one
    of the two pass types, change the text of the sessions input
    ([value] is what [parseInt] returns for the text: NaN when the
    input is cleared; the input is disabled for a day pass), change
    the text of the price input, or have the form reset after a pass
    was created. *)
Inductive Edit :=
| TypePhone (value : string)
| SelectType (dayPass : bool)
| TypeSessions (value : number)
| TypePrice (text : string)
| Reset.

(** The fields' change handlers: [field.onChange(value)], then the
    handler of the page where there is one. *)
Definition edit (form : FormValues) (e : Edit) : FormValues :=
  match e with
  | TypePhone value =>
      {| customerPhone := value; passType := passType form;
         totalSessions := totalSessions form;
         remainingSessions := remainingSessions form;
         purchasePrice := purchasePrice form; isActive := isActive form |}
  | SelectType dayPass =>
      let value := if dayPass then "day_pass"%string else "membership"%string in
      handlePassTypeChange value
        {| customerPhone := customerPhone form; passType := value;
           totalSessions := totalSessions form;
           remainingSessions := remainingSessions form;
           purchasePrice := purchasePrice form; isActive := isActive form |}
  | TypeSessions value =>
      if String.eqb (passType form) "day_pass" then form
      else
        let value := canonical value in
        handleSessionsChange value
          {| customerPhone := customerPhone form; passType := passType form;
             totalSessions := value; remainingSessions := remainingSessions form;
             purchasePrice := purchasePrice form; isActive := isActive form |}
  | TypePrice text => setPrice (Text text) form
  | Reset => defaultValues
  end.

Definition edits (es : list Edit) (form : FormValues) : FormValues :=
  fold_left edit es form.

End PassForm.

(** ** More sample inputs *)

Module MoreSamples.

(** The hook after a refused connection, a reconnection that opens,
    and the close of the socket that opened. *)
Definition reopenedClosed : PushChannel.Hook :=
  {| PushChannel.isConnected := false;
     PushChannel.reconnectAttempts := 0;
     PushChannel.rendered := 0;
     PushChannel.wsRef := Some 3%nat;
     PushChannel.reconnectTimeoutRef := Some 2%nat;
     PushChannel.sockets :=
       [{| PushChannel.ws_reconnectAttempts := 0;
           PushChannel.readyState := PushChannel.CLOSED |};
        {| PushChannel.ws_reconnectAttempts := 0;
           PushChannel.readyState := PushChannel.CLOSED |};
        {| PushChannel.ws_reconnectAttempts := 1;
           PushChannel.readyState := PushChannel.CLOSED |};
        {| PushChannel.ws_reconnectAttempts := 0;
           PushChannel.readyState := PushChannel.CONNECTING |}];
     PushChannel.timers :=
       [{| PushChannel.delay := 1000; PushChannel.timer_reconnectAttempts := 0;
           PushChannel.pending := false |};
        {| PushChannel.delay := 1000; PushChannel.timer_reconnectAttempts := 0;
           PushChannel.pending := false |};
        {| PushChannel.delay := 2000; PushChannel.timer_reconnectAttempts := 1;
           PushChannel.pending := true |}] |}.

(** A reading pushed for room R at time 300, and the point it becomes. *)
Definition fresh : @MergeBuffer.SensorReading QArith_base.Q :=
  {| MergeBuffer.id := "p1"; MergeBuffer.roomId := "R";
     MergeBuffer.temperature := QArith_base.Qmake 371 1;
     MergeBuffer.humidity := QArith_base.Qmake 590 1;
     MergeBuffer.timestamp := 300 |}.

Definition later : @MergeBuffer.SensorDataPoint QArith_base.Q :=
  MergeBuffer.toDataPoint Samples.tenth fresh.

(** The card entry of room R when both sensor endpoints answer 404. *)
Definition emptyEntry
    : @Polling.RoomSensorData string (@MergeBuffer.SensorReading QArith_base.Q) unit :=
  {| Polling.room := "R"%string; Polling.latestReading := None;
     Polling.rsd_lifecycle := None; Polling.readings := [] |}.

(** A server that answers every request with a non-success status. *)
Definition refusing (req : RawFetch.Request) : RawFetch.FetchResult unit :=
  RawFetch.Response false None.

(** A room in cooldown until an hour and a half after time 0, and one
    put in cooldown at time 1000. *)
Definition cooling : Rooms.Room :=
  {| Rooms.id := "R"; Rooms.name := "1"; Rooms.status := "cooldown";
     Rooms.cooldownUntil := Some 5400000 |}.

Definition justCooled : Rooms.Room :=
  {| Rooms.id := "R"; Rooms.name := "1"; Rooms.status := "cooldown";
     Rooms.cooldownUntil := Some (1000 + 14400000) |}.

Definition twoRooms : list Rooms.Room :=
  [{| Rooms.id := "A"; Rooms.name := "1"; Rooms.status := "available";
      Rooms.cooldownUntil := None |};
   {| Rooms.id := "B"; Rooms.name := "2"; Rooms.status := "occupied";
      Rooms.cooldownUntil := None |}].

(** A customer with a confirmed booking, beside another customer's
    booking in progress. *)
Definition me : CustomerPage.Customer := {| CustomerPage.id := "c1" |}.

Definition today : list CustomerPage.Booking :=
  [{| CustomerPage.b_id := "b1"; CustomerPage.customerId := "c1";
      CustomerPage.status := "confirmed" |};
   {| CustomerPage.b_id := "b2"; CustomerPage.customerId := "c2";
      CustomerPage.status := "in_progress" |}].

End MoreSamples.

(** * Properties *)

(** ** Facts about the array helpers *)

Section JsArrayFacts.
Import JsArray.
Context {A : Type}.
Implicit Types (l pre rest : list A) (p : A -> bool).

Lemma findIndex_range p l :
  findIndex p l = -1 \/ 0 <= findIndex p l < Z.of_nat (length l).
Proof.
  induction l as [|x l IH]; simpl; [now left|].
  destruct (p x); [right; lia|].
  destruct (findIndex p l <? 0) eqn:E; [now left|].
  apply Z.ltb_ge in E. right. lia.
Qed.

Lemma findIndex_hit p l :
  existsb p l = true -> 0 <= findIndex p l < Z.of_nat (length l).
Proof.
  induction l as [|x l IH]; simpl; [discriminate|].
  destruct (p x); simpl; [lia|].
  intros H. specialize (IH H).
  destruct (findIndex p l <? 0) eqn:E; [apply Z.ltb_lt in E|]; lia.
Qed.

Lemma findIndex_app p pre l :
  findIndex p (pre ++ l) =
    if existsb p pre then findIndex p pre
    else if findIndex p l <? 0 then -1
         else Z.of_nat (length pre) + findIndex p l.
Proof.
  induction pre as [|x pre IH]; simpl.
  - destruct (findIndex_range p l) as [->| H]; [reflexivity|].
    destruct (findIndex p l <? 0) eqn:E; [apply Z.ltb_lt in E|]; lia.
  - destruct (p x); simpl; [reflexivity|].
    rewrite IH. destruct (existsb p pre); [reflexivity|].
    destruct (findIndex p l <? 0) eqn:E; simpl; [reflexivity|].
    apply Z.ltb_ge in E.
    destruct (Z.of_nat (length pre) + findIndex p l <? 0) eqn:E'.
    + apply Z.ltb_lt in E'. lia.
    + lia.
Qed.

(** An element that satisfies [p] sits at the index [findIndex] returns
    exactly when no earlier element satisfies [p]. *)
Lemma findIndex_first p pre x rest :
  p x = true ->
  (findIndex p (pre ++ x :: rest) =? Z.of_nat (length pre)) = negb (existsb p pre).
Proof.
  intros Hx. rewrite findIndex_app. simpl. rewrite Hx. simpl.
  destruct (existsb p pre) eqn:E; simpl.
  - apply Z.eqb_neq. apply findIndex_hit in E. lia.
  - apply Z.eqb_eq. lia.
Qed.

Lemma slice_last (n : nat) l :
  (0 < n)%nat -> slice (- Z.of_nat n) l = skipn (length l - n) l.
Proof.
  intros Hn. unfold slice.
  destruct (- Z.of_nat n <? 0) eqn:E.
  - f_equal. lia.
  - apply Z.ltb_ge in E. lia.
Qed.

Lemma slice_last_length (n : nat) l :
  (0 < n)%nat -> (length (slice (- Z.of_nat n) l) <= n)%nat.
Proof. intros Hn. rewrite slice_last, length_skipn by assumption. lia. Qed.

Lemma slice_last_short (n : nat) l :
  (0 < n)%nat -> (length l <= n)%nat -> slice (- Z.of_nat n) l = l.
Proof.
  intros Hn H. rewrite slice_last by assumption.
  replace (length l - n)%nat with 0%nat by lia. reflexivity.
Qed.

Lemma slice_last_suffix (n : nat) l :
  (0 < n)%nat -> exists front, l = front ++ slice (- Z.of_nat n) l.
Proof.
  intros Hn. rewrite slice_last by assumption.
  exists (firstn (length l - n) l).
  symmetry. apply firstn_skipn.
Qed.
End JsArrayFacts.

(** ** The stable sort by an integer key *)

Section SortFacts.
Import JsArray.
Context {A : Type}.
Variable key : A -> Z.

Local Abbreviation cmp := (fun a b : A => key a - key b).
Local Abbreviation le_key := (fun a b : A => key a <= key b).
Local Abbreviation has_key t := (fun a : A => key a =? t).

Lemma insert_In x y (s : list A) : In y (insert cmp x s) <-> y = x \/ In y s.
Proof.
  induction s as [|z s IH]; simpl; [intuition congruence|].
  destruct (key x - key z <=? 0); simpl; rewrite ?IH; intuition congruence.
Qed.

Lemma sort_In y (l : list A) : In y (sort cmp l) <-> In y l.
Proof.
  induction l as [|x l IH]; simpl; [tauto|].
  rewrite insert_In, IH. intuition congruence.
Qed.

Lemma insert_length x (s : list A) : length (insert cmp x s) = S (length s).
Proof.
  induction s as [|z s IH]; simpl; [reflexivity|].
  destruct (key x - key z <=? 0); simpl; congruence.
Qed.

Lemma sort_length (l : list A) : length (sort cmp l) = length l.
Proof.
  induction l as [|x l IH]; simpl; [reflexivity|].
  rewrite insert_length. congruence.
Qed.

Lemma insert_sorted x (s : list A) :
  StronglySorted le_key s -> StronglySorted le_key (insert cmp x s).
Proof.
  induction 1 as [|z s Hs IH Hz]; simpl.
  - repeat constructor.
  - pose proof Hz as Hz0. rewrite List.Forall_forall in Hz.
    destruct (key x - key z <=? 0) eqn:E.
    + apply Z.leb_le in E. constructor; [now constructor|].
      apply List.Forall_forall. intros y [<-|Hy]; [lia|].
      specialize (Hz y Hy). cbv beta in Hz. lia.
    + apply Z.leb_gt in E. constructor; [exact IH|].
      apply List.Forall_forall. intros y Hy. apply insert_In in Hy.
      destruct Hy as [->|Hy]; [lia|]. now apply Hz.
Qed.

Lemma sort_sorted (l : list A) : StronglySorted le_key (sort cmp l).
Proof.
  induction l as [|x l IH]; simpl; [constructor|].
  now apply insert_sorted.
Qed.

(** Stability: the elements that share a key keep their relative order. *)
Lemma insert_stable t x (s : list A) :
  StronglySorted le_key s ->
  List.filter (has_key t) (insert cmp x s) =
  List.filter (has_key t) (x :: s).
Proof.
  induction 1 as [|z s Hs IH Hz]; [reflexivity|].
  cbn [insert]. destruct (key x - key z <=? 0) eqn:E; [reflexivity|].
  apply Z.leb_gt in E. cbn [List.filter] in *. rewrite IH.
  destruct (key z =? t) eqn:Ez, (key x =? t) eqn:Ex; try reflexivity.
  apply Z.eqb_eq in Ez, Ex. lia.
Qed.

Lemma sort_stable t (l : list A) :
  List.filter (has_key t) (sort cmp l) = List.filter (has_key t) l.
Proof.
  induction l as [|x l IH]; [reflexivity|].
  cbn [sort]. rewrite insert_stable by apply sort_sorted.
  cbn [List.filter]. now rewrite IH.
Qed.

Lemma filter_own_key x (l : list A) :
  List.filter (has_key (key x)) (x :: l) = x :: List.filter (has_key (key x)) l.
Proof. cbn. now rewrite Z.eqb_refl. Qed.

Lemma sorted_head_least x y (l1 l2 : list A) :
  Forall (le_key y) l2 ->
  List.filter (has_key (key x)) (x :: l1) = List.filter (has_key (key x)) (y :: l2) ->
  key y <= key x.
Proof.
  intros Hy E. rewrite filter_own_key in E.
  assert (Hin : In x (List.filter (has_key (key x)) (y :: l2))).
  { rewrite <- E. now left. }
  apply filter_In in Hin. destruct Hin as [[->|Hin] _]; [lia|].
  rewrite List.Forall_forall in Hy. now apply Hy.
Qed.

(** A sorted arrangement that keeps equal keys in their order is
    determined by the input: two such arrangements coincide. *)
Lemma sort_stable_unique (l1 l2 : list A) :
  StronglySorted le_key l1 -> StronglySorted le_key l2 ->
  (forall t, List.filter (has_key t) l1 = List.filter (has_key t) l2) ->
  l1 = l2.
Proof.
  intros H1. revert l2.
  induction H1 as [|x l1 Hs1 IH Hx]; intros l2 H2 Heq.
  - destruct l2 as [|y l2]; [reflexivity|].
    specialize (Heq (key y)). rewrite filter_own_key in Heq. discriminate.
  - destruct l2 as [|y l2].
    + specialize (Heq (key x)). rewrite filter_own_key in Heq. discriminate.
    + inversion H2 as [|? ? Hs2 Hy]; subst.
      assert (Hxy : key x = key y).
      { pose proof (sorted_head_least x y l1 l2 Hy (Heq (key x))).
        pose proof (sorted_head_least y x l2 l1 Hx (eq_sym (Heq (key y)))).
        lia. }
      assert (x = y) as ->.
      { specialize (Heq (key x)). rewrite filter_own_key in Heq.
        rewrite Hxy, filter_own_key in Heq. congruence. }
      f_equal. apply IH; [assumption|].
      intros t. specialize (Heq t). cbn in Heq.
      destruct (key y =? t); congruence.
Qed.

(** Sorting a sorted array leaves it as it is. *)
Lemma sort_sorted_id (l : list A) :
  StronglySorted le_key l -> sort cmp l = l.
Proof.
  intros H. apply sort_stable_unique.
  - apply sort_sorted.
  - exact H.
  - intros t. apply sort_stable.
Qed.
End SortFacts.

(** ** The merge buffer *)

Section MergeFacts.
Import JsArray MergeBuffer.
Context {number : Type}.
Variable div10 : number -> number.
Variable toLocaleTimeString : Z -> string.

Local Abbreviation Point := (@SensorDataPoint number).
Local Abbreviation Reading := (@SensorReading number).
Local Abbreviation ts := (@dp_timestamp number).
Local Abbreviation ascending := (StronglySorted (fun a b : Point => ts a <= ts b)).
Local Abbreviation at_time t := (fun a : Point => ts a =? t).

Implicit Types (l previous : list Point) (p e : Point).

(** *** Deduplication *)

(** The [filter] callback of [getChartData] keeps an entry exactly when
    no entry before it in the array has its timestamp. *)
Lemma filter_from_firstOccurrence previous l :
  filter_from firstOccurrence (previous ++ l) (Z.of_nat (length previous)) l
  = dropRepeated previous l.
Proof.
  revert previous. induction l as [|e l IH]; intros previous; [reflexivity|].
  cbn [filter_from dropRepeated]. unfold firstOccurrence at 1.
  rewrite (findIndex_first (at_time (ts e))) by apply Z.eqb_refl.
  specialize (IH (previous ++ [e])).
  rewrite <- app_assoc, length_app in IH. cbn [length app] in IH.
  replace (Z.of_nat (length previous + 1)) with (Z.of_nat (length previous) + 1) in IH by lia.
  rewrite IH. now destruct (existsb (at_time (ts e)) previous).
Qed.

Lemma filter_cb_firstOccurrence l :
  filter_cb firstOccurrence l = dropRepeated [] l.
Proof. exact (filter_from_firstOccurrence [] l). Qed.

Lemma existsb_snoc_false previous e t :
  existsb (at_time t) (previous ++ [e]) = false ->
  existsb (at_time t) previous = false /\ ts e <> t.
Proof.
  rewrite existsb_app. cbn. rewrite orb_false_r.
  intros H. apply orb_false_iff in H. destruct H as [H1 H2].
  split; [exact H1|]. now apply Z.eqb_neq.
Qed.

(** A kept entry is the first of the array with its timestamp. *)
Lemma dropRepeated_kept previous l p :
  In p (dropRepeated previous l) ->
  existsb (at_time (ts p)) previous = false /\
  exists tl, List.filter (at_time (ts p)) l = p :: tl.
Proof.
  revert previous. induction l as [|e l IH]; intros previous; [contradiction|].
  cbn [dropRepeated].
  assert (Hrest : In p (dropRepeated (previous ++ [e]) l) ->
    existsb (at_time (ts p)) previous = false /\
    exists tl, List.filter (at_time (ts p)) (e :: l) = p :: tl).
  { intros Hin. destruct (IH _ Hin) as [Hprev [tl Htl]].
    apply existsb_snoc_false in Hprev. destruct Hprev as [Hprev Hne].
    split; [exact Hprev|]. exists tl. cbn.
    apply Z.eqb_neq in Hne. now rewrite Hne. }
  destruct (existsb (at_time (ts e)) previous) eqn:E; [exact Hrest|].
  intros [->|Hin]; [|now apply Hrest].
  split; [exact E|]. eexists. cbn. now rewrite Z.eqb_refl.
Qed.

(** The first entry with a timestamp not seen before is kept. *)
Lemma dropRepeated_keeps_first previous l p tl :
  existsb (at_time (ts p)) previous = false ->
  List.filter (at_time (ts p)) l = p :: tl ->
  In p (dropRepeated previous l).
Proof.
  revert previous. induction l as [|e l IH]; intros previous Hprev Hf;
    [discriminate|].
  cbn [dropRepeated]. cbn in Hf.
  destruct (ts e =? ts p) eqn:E.
  - injection Hf as -> _. rewrite Hprev. now left.
  - assert (In p (dropRepeated (previous ++ [e]) l)).
    { apply IH; [|exact Hf]. rewrite existsb_app. cbn.
      now rewrite Hprev, E. }
    destruct (existsb (at_time (ts e)) previous); [assumption|now right].
Qed.

Lemma dropRepeated_In previous l p :
  In p (dropRepeated previous l) -> In p l.
Proof.
  intros H. apply dropRepeated_kept in H. destruct H as [_ [tl Htl]].
  assert (Hin : In p (List.filter (at_time (ts p)) l)) by (rewrite Htl; now left).
  now apply filter_In in Hin.
Qed.

Lemma dropRepeated_length previous l :
  (length (dropRepeated previous l) <= length l)%nat.
Proof.
  revert previous. induction l as [|e l IH]; intros previous; [reflexivity|].
  cbn [dropRepeated]. specialize (IH (previous ++ [e])).
  destruct (existsb (at_time (ts e)) previous); cbn [length]; lia.
Qed.

Lemma dropRepeated_ascending previous l :
  ascending l -> ascending (dropRepeated previous l).
Proof.
  intros H. revert previous.
  induction H as [|e l Hs IH He]; intros previous; [constructor|].
  cbn [dropRepeated].
  destruct (existsb (at_time (ts e)) previous); [apply IH|].
  constructor; [apply IH|].
  apply List.Forall_forall. intros p Hp. apply dropRepeated_In in Hp.
  rewrite List.Forall_forall in He. now apply He.
Qed.

Lemma dropRepeated_NoDup previous l :
  NoDup (map ts (dropRepeated previous l)).
Proof.
  revert previous. induction l as [|e l IH]; intros previous; [constructor|].
  cbn [dropRepeated].
  destruct (existsb (at_time (ts e)) previous); [apply IH|].
  cbn [map]. constructor; [|apply IH].
  rewrite list_elem_of_In. intros Hin. apply in_map_iff in Hin.
  destruct Hin as [p [Hts Hp]].
  apply dropRepeated_kept in Hp. destruct Hp as [Hprev _].
  apply existsb_snoc_false in Hprev. destruct Hprev as [_ Hne]. congruence.
Qed.

(** Nothing is removed from an array whose timestamps are distinct
    and new. *)
Lemma dropRepeated_distinct previous l :
  NoDup (map ts l) ->
  (forall p, In p l -> existsb (at_time (ts p)) previous = false) ->
  dropRepeated previous l = l.
Proof.
  revert previous. induction l as [|e l IH]; intros previous Hnd Hnew;
    [reflexivity|].
  cbn [dropRepeated]. rewrite (Hnew e) by now left.
  cbn [map] in Hnd. apply NoDup_cons in Hnd. destruct Hnd as [Hne Hnd].
  rewrite list_elem_of_In in Hne.
  f_equal. apply IH; [exact Hnd|].
  intros p Hp. rewrite existsb_app. cbn.
  rewrite (Hnew p) by now right. cbn. rewrite orb_false_r.
  apply Z.eqb_neq. intros Heq. apply Hne. rewrite Heq. now apply in_map.
Qed.
(** *** The pipeline *)

Lemma mergePoints_unfold (dbData wsData : list Point) :
  mergePoints dbData wsData =
  slice (- Z.of_nat 50) (dropRepeated [] (sort byTimestamp (dbData ++ wsData))).
Proof. unfold mergePoints. now rewrite filter_cb_firstOccurrence. Qed.

Lemma combined_ascending (l : list Point) : ascending (sort byTimestamp l).
Proof. exact (sort_sorted ts l). Qed.

Lemma ascending_skipn n l : ascending l -> ascending (skipn n l).
Proof.
  revert l. induction n as [|n IH]; intros l H; [exact H|].
  destruct l as [|e l]; [constructor|]. cbn [skipn].
  apply IH. now inversion H.
Qed.

Lemma ascending_timestamps l :
  ascending l -> StronglySorted Z.le (map ts l).
Proof.
  induction 1 as [|e l Hs IH He]; cbn [map]; constructor; [exact IH|].
  apply List.Forall_forall. intros t Ht. apply in_map_iff in Ht.
  destruct Ht as [p [<- Hp]]. rewrite List.Forall_forall in He. now apply He.
Qed.

Lemma mergePoints_ascending (dbData wsData : list Point) :
  ascending (mergePoints dbData wsData).
Proof.
  rewrite mergePoints_unfold, slice_last by lia.
  apply ascending_skipn, dropRepeated_ascending, combined_ascending.
Qed.

Lemma mergePoints_NoDup (dbData wsData : list Point) :
  NoDup (map ts (mergePoints dbData wsData)).
Proof.
  rewrite mergePoints_unfold, slice_last by lia.
  rewrite <- List.skipn_map.
  eapply sublist_NoDup; [apply dropRepeated_NoDup|apply sublist_drop].
Qed.

Lemma mergePoints_length (dbData wsData : list Point) :
  (length (mergePoints dbData wsData) <= 50)%nat.
Proof. rewrite mergePoints_unfold. apply slice_last_length. lia. Qed.

(** An array that is ascending, without repeated timestamps and no
    longer than the window goes through the pipeline unchanged. *)
Lemma mergePoints_fixed l :
  ascending l -> NoDup (map ts l) -> (length l <= 50)%nat ->
  mergePoints l [] = l.
Proof.
  intros Hasc Hnd Hlen. rewrite mergePoints_unfold, app_nil_r.
  change (@byTimestamp number) with (fun a b : Point => ts a - ts b).
  rewrite (sort_sorted_id ts) by exact Hasc.
  rewrite dropRepeated_distinct by (auto; intros; reflexivity).
  apply slice_last_short; lia.
Qed.

(** C1.  The sequence [unique] that [getChartData] hands to the chart
    is non-decreasing in timestamp, holds no timestamp twice and has
    at most 50 entries; the chart receives one row per entry. *)
Theorem getChartData_sorted_unique_bounded
    (sensorDataMap : gmap string (list Point)) (room : string)
    (readings : list Reading) :
  let unique := chartPoints div10 sensorDataMap room readings in
  getChartData div10 toLocaleTimeString sensorDataMap room readings
    = map (chartRow toLocaleTimeString) unique /\
  StronglySorted Z.le (map dp_timestamp unique) /\
  NoDup (map dp_timestamp unique) /\
  (length unique <= 50)%nat /\
  (length (getChartData div10 toLocaleTimeString sensorDataMap room readings) <= 50)%nat.
Proof.
  intros unique. split; [reflexivity|]. unfold getChartData. rewrite length_map.
  subst unique. unfold chartPoints.
  split; [apply ascending_timestamps, mergePoints_ascending|].
  split; [apply mergePoints_NoDup|].
  split; apply mergePoints_length.
Qed.

(** C5.  Merging the output of a merge with the empty set gives that
    output again, on the pipeline and through [getChartData]'s own
    inputs (the output stored as the room's live window, no
    historical reading). *)
Theorem mergePoints_idempotent (A B : list Point) :
  mergePoints (mergePoints A B) [] = mergePoints A B /\
  mergePoints [] (mergePoints A B) = mergePoints A B /\
  forall (m m' : gmap string (list Point)) (room : string) (readings : list Reading),
    let out := chartPoints div10 m room readings in
    chartPoints div10 (<[room := out]> m') room [] = out.
Proof.
  assert (Hfix : forall l : list Point,
    ascending l -> NoDup (map ts l) -> (length l <= 50)%nat ->
    mergePoints [] l = l).
  { intros l H1 H2 H3. rewrite <- (mergePoints_fixed l H1 H2 H3) at 2.
    unfold mergePoints. now rewrite app_nil_r. }
  split; [|split].
  - apply mergePoints_fixed;
      [apply mergePoints_ascending|apply mergePoints_NoDup|apply mergePoints_length].
  - apply Hfix;
      [apply mergePoints_ascending|apply mergePoints_NoDup|apply mergePoints_length].
  - intros m m' room readings out. unfold chartPoints at 1.
    rewrite lookup_insert_eq. cbn [default map].
    subst out. unfold chartPoints. apply Hfix;
      [apply mergePoints_ascending|apply mergePoints_NoDup|apply mergePoints_length].
Qed.
(** *** The reference algorithm *)

Lemma filter_absent (f : Point -> bool) l :
  (forall p, In p l -> f p = false) -> List.filter f l = [].
Proof.
  induction l as [|e l IH]; intros H; [reflexivity|].
  cbn. rewrite (H e) by now left. apply IH. intros p Hp. apply H. now right.
Qed.

Lemma placeAscending_In x p l :
  In p (placeAscending x l) <-> p = x \/ In p l.
Proof.
  induction l as [|e l IH]; cbn; [intuition congruence|].
  destruct (ts e <=? ts x); cbn; rewrite ?IH; intuition congruence.
Qed.

Lemma placeAscending_ascending x l :
  ascending l -> ascending (placeAscending x l).
Proof.
  induction 1 as [|e l Hs IH He]; cbn.
  - repeat constructor.
  - pose proof He as He'. rewrite List.Forall_forall in He'.
    destruct (ts e <=? ts x) eqn:E.
    + apply Z.leb_le in E. constructor; [exact IH|].
      apply List.Forall_forall. intros p Hp. apply placeAscending_In in Hp.
      destruct Hp as [->|Hp]; [exact E|now apply He'].
    + apply Z.leb_gt in E. constructor; [now constructor|].
      apply List.Forall_forall. intros p [<-|Hp]; [lia|].
      specialize (He' p Hp). cbv beta in He'. lia.
Qed.

(** Placing an entry keeps the entries of every timestamp in their
    order of arrival. *)
Lemma placeAscending_stable t x l :
  ascending l ->
  List.filter (at_time t) (placeAscending x l) = List.filter (at_time t) (l ++ [x]).
Proof.
  induction 1 as [|e l Hs IH He]; [reflexivity|].
  cbn [placeAscending]. destruct (ts e <=? ts x) eqn:E.
  - cbn [List.filter app]. now rewrite IH.
  - apply Z.leb_gt in E. rewrite List.Forall_forall in He.
    change ((e :: l) ++ [x]) with (e :: (l ++ [x])).
    cbn [List.filter]. rewrite List.filter_app.
    cbn [List.filter]. destruct (ts x =? t) eqn:Ex.
    + apply Z.eqb_eq in Ex.
      assert (Hnone : List.filter (at_time t) l = []).
      { apply filter_absent. intros p Hp. specialize (He p Hp).
        cbv beta in He. apply Z.eqb_neq. lia. }
      rewrite Hnone.
      assert ((ts e =? t) = false) as -> by (apply Z.eqb_neq; lia).
      reflexivity.
    + now rewrite !app_nil_r.
Qed.

Lemma sortAscending_from (acc l : list Point) :
  ascending acc ->
  ascending (fold_left (fun acc x => placeAscending x acc) l acc) /\
  forall t,
    List.filter (at_time t) (fold_left (fun acc x => placeAscending x acc) l acc)
    = List.filter (at_time t) (acc ++ l).
Proof.
  revert acc. induction l as [|x l IH]; intros acc Hacc; cbn [fold_left].
  - split; [exact Hacc|]. intros t. now rewrite app_nil_r.
  - destruct (IH (placeAscending x acc)) as [H1 H2];
      [now apply placeAscending_ascending|].
    split; [exact H1|]. intros t. rewrite H2.
    rewrite !List.filter_app, placeAscending_stable by exact Hacc.
    rewrite List.filter_app. cbn [app]. rewrite <- app_assoc.
    change (x :: l) with ([x] ++ l). now rewrite List.filter_app.
Qed.

(** "Sort ascending by timestamp" and the comparator sort of the code
    arrange the entries in the same way. *)
Lemma sortAscending_sort l : sortAscending l = sort byTimestamp l.
Proof.
  destruct (sortAscending_from [] l) as [H1 H2]; [constructor|].
  apply (sort_stable_unique ts); [exact H1|apply combined_ascending|].
  intros t. unfold sortAscending. rewrite H2. cbn [app].
  symmetry. exact (sort_stable ts t l).
Qed.

Lemma mostRecent_slice (n : nat) l :
  (0 < n)%nat -> mostRecent n l = slice (- Z.of_nat n) l.
Proof.
  intros Hn. unfold mostRecent. rewrite slice_last by exact Hn.
  rewrite List.firstn_rev, rev_involutive. reflexivity.
Qed.

Lemma mergePoints_reference (batch liveAppends : list Point) :
  mergePoints batch liveAppends = reference_merge batch liveAppends.
Proof.
  rewrite mergePoints_unfold. unfold reference_merge, N.
  rewrite mostRecent_slice by lia. now rewrite sortAscending_sort.
Qed.
(** C2.  [getChartData]'s pipeline computes the reference algorithm:
    concatenate the historical batch and the live readings, sort
    ascending by timestamp, drop every entry whose timestamp equals
    that of an earlier entry, keep the most recent 50.  With
    historical readings at 100, 200, 300 and one pushed reading at
    250 for a room without live data, the merged order is
    100, 200, 250, 300. *)
Theorem chartPoints_refines_reference :
  (forall batch liveAppends : list Point,
     mergePoints batch liveAppends = reference_merge batch liveAppends) /\
  (forall (m : gmap string (list Point)) (room : string) (readings : list Reading),
     chartPoints div10 m room readings
     = reference_merge (map (toDataPoint div10) readings) (default [] (m !! room))) /\
  (forall (room i1 i2 i3 i4 : string) (t1 t2 t3 t4 h1 h2 h3 h4 : number),
     let r100 := Build_SensorReading i1 room t1 h1 100 in
     let r200 := Build_SensorReading i2 room t2 h2 200 in
     let r300 := Build_SensorReading i3 room t3 h3 300 in
     let r250 := Build_SensorReading i4 room t4 h4 250 in
     chartPoints div10 (onSensorReading div10 r250 ∅) room [r100; r200; r300]
     = map (toDataPoint div10) [r100; r200; r250; r300]).
Proof.
  split; [exact mergePoints_reference|]. split.
  - intros m room readings. unfold chartPoints. apply mergePoints_reference.
  - intros. unfold chartPoints, onSensorReading. subst r250. cbn [roomId].
    rewrite lookup_insert_eq, lookup_empty. reflexivity.
Qed.

(** *** Ties between a historical and a live reading *)

Lemma first_reading_first_point t (readings : list Reading) r0 :
  List.find (fun r => timestamp r =? t) readings = Some r0 ->
  timestamp r0 = t /\
  exists tl, List.filter (at_time t) (map (toDataPoint div10) readings)
             = toDataPoint div10 r0 :: tl.
Proof.
  induction readings as [|r readings IH]; [discriminate|].
  cbn [List.find map List.filter]. cbn [toDataPoint dp_timestamp].
  destruct (timestamp r =? t) eqn:E.
  - intros [= ->]. split; [now apply Z.eqb_eq|]. now eexists.
  - exact IH.
Qed.

Lemma combined_first t (readings : list Reading) (wsData : list Point) r0 :
  List.find (fun r => timestamp r =? t) readings = Some r0 ->
  exists tl,
    List.filter (at_time t)
      (sort byTimestamp (map (toDataPoint div10) readings ++ wsData))
    = toDataPoint div10 r0 :: tl.
Proof.
  intros Hfind. apply first_reading_first_point in Hfind.
  destruct Hfind as [_ [tl Htl]].
  exists (tl ++ List.filter (at_time t) wsData).
  change (@byTimestamp number) with (fun a b : Point => ts a - ts b).
  rewrite (sort_stable ts t), List.filter_app, Htl. reflexivity.
Qed.

(** C10.  When a live reading has the timestamp [t] of a historical
    reading, every merged entry at [t] carries the values of the
    (first) historical reading at [t]; a live point at [t] with other
    values is not in the output; and as long as the window of 50 is not
    exceeded the historical entry is in the output. *)
Theorem historical_reading_wins_tie
    (sensorDataMap : gmap string (list Point)) (room : string)
    (readings : list Reading) (t : Z) (r0 : Reading) :
  List.find (fun r => timestamp r =? t) readings = Some r0 ->
  let wsData := default [] (sensorDataMap !! room) in
  let unique := chartPoints div10 sensorDataMap room readings in
  (forall p, In p unique -> dp_timestamp p = t -> p = toDataPoint div10 r0) /\
  (forall w, In w wsData -> dp_timestamp w = t -> w <> toDataPoint div10 r0 ->
             ~ In w unique) /\
  ((length readings + length wsData <= 50)%nat ->
   In (toDataPoint div10 r0) unique).
Proof.
  intros Hfind wsData unique.
  destruct (combined_first t readings wsData r0 Hfind) as [tl Htl].
  assert (Hwin : forall p, In p unique -> dp_timestamp p = t ->
                           p = toDataPoint div10 r0).
  { intros p Hp Hts. unfold unique, chartPoints in Hp.
    rewrite mergePoints_unfold in Hp.
    destruct (slice_last_suffix 50
      (dropRepeated [] (sort byTimestamp (map (toDataPoint div10) readings ++ wsData))))
      as [front Hfront]; [lia|].
    assert (Hin : In p (dropRepeated []
      (sort byTimestamp (map (toDataPoint div10) readings ++ wsData)))).
    { rewrite Hfront. apply in_or_app. now right. }
    apply dropRepeated_kept in Hin. destruct Hin as [_ [tl' Htl']].
    rewrite Hts, Htl in Htl'. congruence. }
  split; [exact Hwin|]. split.
  - intros w _ Hts Hne Hin. apply Hne. now apply Hwin.
  - intros Hlen. unfold unique, chartPoints. rewrite mergePoints_unfold.
    rewrite slice_last_short; [|lia|].
    + apply first_reading_first_point in Hfind as Hts. destruct Hts as [Hts _].
      eapply dropRepeated_keeps_first; [reflexivity|].
      cbn [toDataPoint dp_timestamp]. rewrite Hts. exact Htl.
    + etransitivity; [apply dropRepeated_length|].
      change (@byTimestamp number) with (fun a b : Point => ts a - ts b).
      rewrite (sort_length ts), length_app, length_map. exact Hlen.
Qed.
End MergeFacts.

(** ** The push channel *)

Section PushChannelFacts.
Import PushChannel PushChannelTraces.

Lemma timeout_formula (k : nat) :
  timeout k = Z.min (1000 * 2 ^ Z.of_nat k) 30000.
Proof. reflexivity. Qed.

Lemma timeout_capped (k : nat) : (5 <= k)%nat -> timeout k = 30000.
Proof.
  intros H. unfold timeout. apply Z.min_r.
  assert (2 ^ 5 <= 2 ^ Z.of_nat k) by (apply Z.pow_le_mono_r; lia).
  lia.
Qed.

(** C3, at a server that refuses every connection.  The hook sets
    its timers with the delays 1000, 1000, 2000, 1000, 4000 ms, not
    1000, 2000, 4000, 8000, 16000: the socket that a timer's callback
    makes through the [connect] of an earlier render is closed by the
    render that follows, and its [onclose] computes the delay from the
    counter of that earlier render.  The timers of 2000 and 4000 ms
    are set by the sockets of the current render; the first of them
    is cleared before it can fire. *)
Theorem refused_connections_repeat_first_delay :
  exists h : Hook,
    run refused mounted = Some h /\
    delays h = [1000; 1000; 2000; 1000; 4000] /\
    delays h <> map timeout (seq 0 5) /\
    map pending (timers h) = [false; false; false; true; true] /\
    reconnectAttempts h = 2%nat /\
    length (sockets h) = 5%nat.
Proof.
  eexists. split; [vm_compute; reflexivity|].
  cbn [delays timers map delay pending reconnectAttempts sockets length].
  repeat split. vm_compute. discriminate.
Qed.

(** C4, at a first connection that is refused and a second that
    opens.  The open sets the counter to zero; the render that follows
    closes the socket that has just opened, and the [onclose] of this
    socket, which read the counter 1 when it was made, sets the next
    timer to 2000 ms, not 1000. *)
Theorem open_after_failure_schedules_stale_delay :
  exists opened closed : Hook,
    run reopened mounted = Some opened /\
    reconnectAttempts opened = 0%nat /\
    isConnected opened = true /\
    sockets opened !! 2%nat
      = Some {| ws_reconnectAttempts := 1; readyState := CLOSING |} /\
    wsRef opened = Some 3%nat /\
    deliver opened (SocketCloses 2) = Some closed /\
    delays closed = [1000; 1000; 2000] /\
    last (delays closed) <> Some 1000 /\
    isConnected closed = false.
Proof.
  eexists. eexists. split; [vm_compute; reflexivity|].
  split; [reflexivity|]. split; [reflexivity|]. split; [reflexivity|].
  split; [reflexivity|]. split; [vm_compute; reflexivity|].
  split; [reflexivity|]. split; [discriminate|reflexivity].
Qed.
End PushChannelFacts.

(** ** Inbound messages *)

Section MessagesFacts.
Import Messages.
Context {number : Type}.
Variable falsyNumber : number -> bool.
Variable JSON_parse : string -> option (@JsValue number).

Local Abbreviation Value := (@JsValue number).
Local Abbreviation Options := (@UseWebSocketOptions number).
Local Abbreviation handle := (onmessage falsyNumber JSON_parse).

(** Whatever the body of the [try] does, control leaves the handler
    normally: the [catch] clause only writes to the console. *)
Lemma try_catch_returns (body : Eff unit) (text : string) :
  returns (try_catch body (emit (ConsoleError (number := number) text))).
Proof. destruct body as [es [[]|]]; reflexivity. Qed.

Lemma bind_ret {A B : Type} (a : A) (k : A -> Eff (number := number) B) :
  bind (ret a) k = k a.
Proof. unfold bind, ret. now destruct (k a). Qed.

Lemma bind_throw {A B : Type} (k : A -> Eff (number := number) B) :
  bind throw k = throw.
Proof. reflexivity. Qed.

(** Reading [type] either yields the message's type or throws, and it
    throws only on [null] and [undefined]. *)
Lemma getProperty_type (message : Value) :
  getProperty message "type" = ret (typeOf message) \/
  (getProperty message "type" = throw /\ typeOf message = JUndefined).
Proof. destruct message; cbn; auto. Qed.

Lemma dispatch_absent (callback : Callback) (message : Value) :
  dispatch falsyNumber callback None message = ret tt.
Proof. reflexivity. Qed.

(** The cases of the [switch] exclude one another. *)
Lemma switch_cases (type : Value) :
  exists b1 b2 b3 b4 : bool,
    isString type "sensor_reading" = b1 /\ isString type "alert" = b2 /\
    isString type "lifecycle_update" = b3 /\ isString type "connected" = b4 /\
    ((b1, b2, b3, b4) = (true, false, false, false) \/
     (b1, b2, b3, b4) = (false, true, false, false) \/
     (b1, b2, b3, b4) = (false, false, true, false) \/
     (b1, b2, b3, b4) = (false, false, false, true) \/
     (b1, b2, b3, b4) = (false, false, false, false)).
Proof.
  destruct type as [| | | |s| |];
    try (exists false, false, false, false; cbn; tauto).
  cbn [isString].
  destruct (String.eqb_spec s "sensor_reading") as [->|_];
    [exists true, false, false, false; cbn; tauto|].
  destruct (String.eqb_spec s "alert") as [->|_];
    [exists false, true, false, false; cbn; tauto|].
  destruct (String.eqb_spec s "lifecycle_update") as [->|_];
    [exists false, false, true, false; cbn; tauto|].
  destruct (String.eqb_spec s "connected") as [->|_];
    [exists false, false, false, true; cbn; tauto|].
  exists false, false, false, false. tauto.
Qed.

(** C6.  The message handler always returns normally.  A message that
    does not parse, or whose type is none of [sensor_reading],
    [alert], [lifecycle_update], [connected], reaches no callback;
    a message of a kind whose callback was not registered has no
    effect at all. *)
Theorem onmessage_drops_unknown (options : Options) (event_data : string) :
  returns (handle options event_data) /\
  (malformedOrUnknown JSON_parse event_data = true ->
   callsNothing (handle options event_data)) /\
  (callbackAbsent JSON_parse options event_data = true ->
   fst (handle options event_data) = []).
Proof.
  split; [apply try_catch_returns|].
  unfold malformedOrUnknown, callbackAbsent, callsNothing, onmessage.
  destruct (JSON_parse event_data) as [message|]; [|split; [reflexivity|discriminate]].
  unfold recognized.
  rewrite bind_ret.
  destruct (getProperty_type message) as [Hty|[Hty Hundef]]; rewrite Hty.
  - rewrite bind_ret.
    destruct (switch_cases (typeOf message))
      as (b1 & b2 & b3 & b4 & -> & -> & -> & -> & Hcases).
    destruct Hcases as [H|[H|[H|[H|H]]]]; injection H as -> -> -> ->;
      cbn [orb andb negb]; (split; [try discriminate|]);
      try (intros _; reflexivity);
      rewrite ?orb_false_r; try discriminate.
    + destruct (onSensorReading options); cbn [absent]; [discriminate|].
      intros _. reflexivity.
    + destruct (onAlert options); cbn [absent]; [discriminate|].
      intros _. reflexivity.
    + destruct (onLifecycleUpdate options); cbn [absent]; [discriminate|].
      intros _. reflexivity.
  - rewrite bind_throw, Hundef. cbn. split; [reflexivity|discriminate].
Qed.
End MessagesFacts.

(** ** The room-status mutation *)

Section RequestCacheFacts.
Import RequestCache.
Context {Value Server Failure : Type}.
Variable apiRequest :
  string -> string -> string * option Z -> Server -> Server * (Value + Failure).
Variable fetchKey : string -> Server -> Value + Failure.
Variable isUnauthorizedError : Failure -> bool.
Variable message : Failure -> string.
Variable ROOMS_LIST : string.

Local Abbreviation World := (@World Value Server).
Local Abbreviation mutate :=
  (mutate apiRequest isUnauthorizedError message ROOMS_LIST).
Local Abbreviation succeeded := (succeeded apiRequest).
Local Abbreviation read := (read fetchKey).

(** A read of a key that has been invalidated goes to the backend. *)
Lemma read_invalidated (queryKey : string) (w : World) (v : Value) :
  fetchKey queryKey (server w) = inl v ->
  fst (read queryKey (invalidateQueries queryKey w)) = Some v.
Proof.
  intros Hfetch. unfold RequestCache.read, invalidateQueries.
  cbn [server cache]. rewrite Hfetch, lookup_alter_eq.
  destruct (cache w !! queryKey) as [q|]; reflexivity.
Qed.

Lemma onError_keeps_cache (error : Failure) (w : World) :
  fst (onError isUnauthorizedError message error w) = w /\
  existsb isErrorToast (snd (onError isUnauthorizedError message error w)) = true /\
  forall k, existsb (invalidates k) (snd (onError isUnauthorizedError message error w)) = false.
Proof.
  unfold onError. destruct (isUnauthorizedError error); cbn; auto.
Qed.

(** C7.  The mutation invalidates a key exactly when its request
    succeeded, and the key is then the rooms list: the next read of
    that key returns what the backend holds after the mutation.  A
    failed mutation leaves the cache as it was and shows the error. *)
Theorem invalidation_iff_mutation_success (vars : StatusChange) (w : World) :
  let w' := fst (mutate vars w) in
  let effects := snd (mutate vars w) in
  server w' = fst (mutationFn apiRequest vars (server w)) /\
  existsb (invalidates ROOMS_LIST) effects = succeeded vars w /\
  (forall k, existsb (invalidates k) effects = true ->
             succeeded vars w = true /\ k = ROOMS_LIST) /\
  (succeeded vars w = true ->
   forall v, fetchKey ROOMS_LIST (server w') = inl v ->
             fst (read ROOMS_LIST w') = Some v) /\
  (succeeded vars w = false ->
   cache w' = cache w /\ existsb isErrorToast effects = true).
Proof.
  unfold RequestCache.mutate, RequestCache.succeeded.
  destruct (mutationFn apiRequest vars (server w)) as [srv' [resp|error]];
    cbn [fst snd].
  - cbn. rewrite String.eqb_refl. cbn.
    split; [reflexivity|]. split; [reflexivity|]. split; [|split].
    + intros k Hk. rewrite orb_false_r in Hk.
      apply String.eqb_eq in Hk. auto.
    + intros _ v Hfetch.
      apply (read_invalidated ROOMS_LIST {| server := srv'; cache := cache w |} v Hfetch).
    + discriminate.
  - destruct (onError_keeps_cache error {| server := srv'; cache := cache w |})
      as (Hw & Htoast & Hinv).
    rewrite Hw. cbn [server cache].
    split; [reflexivity|]. split; [apply Hinv|]. split; [|split].
    + intros k Hk. rewrite Hinv in Hk. discriminate.
    + discriminate.
    + intros _. split; [reflexivity|exact Htoast].
Qed.
End RequestCacheFacts.

(** ** Polling *)

Section PollingFacts.
Import Polling.
Context {Room Reading Lifecycle : Type}.
Variable id : Room -> string.
Variable sensorsByRoom : string -> Z -> string.

Local Abbreviation RoomReading := (@RoomReading Reading).
Local Abbreviation RoomSensorData := (@RoomSensorData Room Reading Lifecycle).
Local Abbreviation RoomWithSensorData := (@RoomWithSensorData Reading Lifecycle).

Lemma Promise_all_resolved {A B : Type} (f : A -> Settled B) (P : A -> B -> Prop)
    (l : list A) :
  (forall x, In x l -> exists v, f x = Resolved v /\ P x v) ->
  exists vs, Promise_all (map f l) = Resolved vs /\ Forall2 P l vs.
Proof.
  induction l as [|x l IH]; intros H.
  - exists []. split; [reflexivity|constructor].
  - destruct (H x) as [v [Hv HP]]; [now left|].
    destruct IH as [vs [Hvs HF]]; [intros y Hy; apply H; now right|].
    exists (v :: vs). cbn. rewrite Hv, Hvs. split; [reflexivity|now constructor].
Qed.

Lemma Promise_all_rejected {A B : Type} (f : A -> Settled B) (l : list A) (x : A) :
  In x l -> f x = Rejected -> Promise_all (map f l) = Rejected.
Proof.
  induction l as [|y l IH]; [contradiction|].
  intros [->|Hin] Hx; cbn.
  - now rewrite Hx.
  - destruct (f y); [|reflexivity]. now rewrite IH.
Qed.

Lemma Forall2_In_l {A B : Type} (P : A -> B -> Prop) (l : list A) (vs : list B) (x : A) :
  Forall2 P l vs -> In x l -> exists v, In v vs /\ P x v.
Proof.
  induction 1 as [|y v l vs Hyv HF IH]; [contradiction|].
  intros [->|Hin].
  - exists v. split; [now left|assumption].
  - destruct (IH Hin) as [v' [Hv' HP]]. exists v'. split; [now right|assumption].
Qed.

(** In CustomerApp every failure is caught inside the query function
    and turned into an entry without reading. *)
Lemma latestOf_resolves (fetch : string -> FetchResult (list Reading)) (room : Room) :
  exists e : RoomReading,
    latestOf id sensorsByRoom fetch room = Resolved e /\
    roomId e = id room /\
    (failed (fetch (sensorsByRoom (id room) 1)) = true -> reading e = None).
Proof.
  unfold latestOf.
  destruct (fetch (sensorsByRoom (id room) 1)) as [|[] [readings|]];
    eexists; (split; [reflexivity|]); split; try reflexivity; discriminate.
Qed.

Lemma enabled_nonempty (rooms : list Room) : rooms <> [] -> enabled rooms = true.
Proof. destruct rooms; [congruence|]. intros _. reflexivity. Qed.

(** In SensorMonitoring a non-success status is replaced by an empty
    body, and a rejected request rejects the whole query. *)
Lemma sensorDataOf_cases
    (fetchSensorData : string -> FetchResult RoomWithSensorData)
    (fetchReadings : string -> FetchResult (list Reading)) (r : Room) :
  let a := fetchSensorData ("/api/rooms/" ++ id r ++ "/sensor-data")%string in
  let b := fetchReadings ("/api/sensor/readings/" ++ id r ++ "?limit=50")%string in
  (rejects a || rejects b = true ->
   sensorDataOf id fetchSensorData fetchReadings r = Rejected) /\
  (rejects a || rejects b = false ->
   exists e : RoomSensorData,
     sensorDataOf id fetchSensorData fetchReadings r = Resolved e /\
     room e = r /\
     (failed a = true -> latestReading e = None /\ rsd_lifecycle e = None) /\
     (failed b = true -> readings e = [])).
Proof.
  intros a b. unfold sensorDataOf. fold a. fold b.
  destruct a as [|[] [da|]], b as [|[] [db|]]; cbn;
    (split; [try discriminate; reflexivity|]); try discriminate;
    intros _; eexists; (split; [reflexivity|]); split; try reflexivity;
    split; intros; try discriminate; auto.
Qed.
Lemma tick_next {A : Type} (interval : Z) (queryFn : Settled A) (now : Z)
    (q : Polled A) :
  nextFetchAt (tick true interval queryFn now q) = now + interval.
Proof. now destruct queryFn. Qed.

End PollingFacts.

(** ** Requests sent with [fetch] directly *)

Section RawFetchFacts.
Import RawFetch.
Context {Alert Customer Json : Type}.
Variable id : Alert -> string.
Variable VERIFY_PIN : string.
Variable asCustomer : Json -> Customer.
Variable errorText : Json -> string.

Local Abbreviation State := (@CustomerAppState Customer).
Local Abbreviation search := (handlePhoneSearch VERIFY_PIN asCustomer errorText).

(** The alert dismissal is sent as a bare PATCH: no header at all. *)
Lemma dismissAlert_request (fetch : Request -> FetchResult Json)
    (alertId : string) (alerts : list Alert) :
  fst (dismissAlert id fetch alertId alerts)
  = [{| method := "PATCH"; url := "/api/alerts/" ++ alertId ++ "/dismiss";
        headers := []; body := None |}].
Proof. unfold dismissAlert. now destruct (fetch _). Qed.

(** C9, as the code has it.  The PIN verification of CustomerApp is
    sent whenever the phone number has a length of at least 10 and the
    PIN a length of exactly 4, in UTF-16 code units as [.length]
    counts them, whether or not a session credential exists; it
    carries a [Content-Type] header and no [Authorization] header.
    When the input is rejected nothing is sent. *)
Theorem verify_pin_sent_without_bearer
    (fetch : Request -> FetchResult Json) (st : State) :
  let req := {| method := "POST";
                url := VERIFY_PIN;
                headers := [("Content-Type", "application/json")];
                body := Some [("phone", customerPhone st); ("pin", customerPin st)] |} in
  (10 <= Z.of_nat (utf16Length (customerPhone st)) ->
   Z.of_nat (utf16Length (customerPin st)) = 4 ->
   fst (search fetch st) = [req] /\
   authorization req = None /\
   forall session : option string, carriesBearer session req = false) /\
  (Z.of_nat (utf16Length (customerPhone st)) < 10 \/
   Z.of_nat (utf16Length (customerPin st)) <> 4 ->
   fst (search fetch st) = []).
Proof.
  intros req. unfold handlePhoneSearch. split.
  - intros Hphone Hpin.
    destruct (Z.ltb_spec (Z.of_nat (utf16Length (customerPhone st))) 10); [lia|].
    rewrite Hpin. cbn [Z.eqb Pos.eqb negb].
    split; [|split; [reflexivity|intros [token|]; reflexivity]].
    cbn [setPinError customerPhone customerPin].
    fold req.
    destruct (fetch req) as [|[] [json|]]; reflexivity.
  - intros Hbad.
    destruct (Z.ltb_spec (Z.of_nat (utf16Length (customerPhone st))) 10);
      [reflexivity|].
    destruct (Z.eqb_spec (Z.of_nat (utf16Length (customerPin st))) 4);
      [lia|reflexivity].
Qed.
End RawFetchFacts.

(** ** The properties at the sample inputs *)

Section AtSamples.
Import Samples.

(** A historical and a pushed reading at time 200: the chart shows
    the historical values and not the pushed ones. *)
Lemma historical_reading_wins_tie_sample :
  List.find (fun r => MergeBuffer.timestamp r =? 200) [historical] = Some historical /\
  In (MergeBuffer.toDataPoint tenth historical)
     (MergeBuffer.chartPoints tenth liveWindow "R" [historical]) /\
  ~ In live (MergeBuffer.chartPoints tenth liveWindow "R" [historical]).
Proof.
  assert (H : List.find (fun r => MergeBuffer.timestamp r =? 200) [historical]
              = Some historical) by reflexivity.
  destruct (historical_reading_wins_tie tenth liveWindow "R" [historical] 200
              historical H) as (_ & Hlive & Hin).
  split; [exact H|]. split.
  - apply Hin. unfold liveWindow. rewrite lookup_singleton_eq. cbn. lia.
  - apply Hlive.
    + unfold liveWindow. rewrite lookup_singleton_eq. now left.
    + reflexivity.
    + discriminate.
Defined.

(** A message of an unexpected kind reaches none of three registered
    callbacks; a sensor reading without a registered callback has no
    effect. *)
Lemma onmessage_unexpected_kind_sample :
  Messages.malformedOrUnknown parse "unexpected" = true /\
  Messages.callsNothing (Messages.onmessage (Z.eqb 0) parse everyCallback "unexpected") /\
  Messages.callbackAbsent parse noCallback "reading" = true /\
  fst (Messages.onmessage (Z.eqb 0) parse noCallback "reading") = [].
Proof.
  assert (H1 : Messages.malformedOrUnknown parse "unexpected" = true) by reflexivity.
  assert (H2 : Messages.callbackAbsent parse noCallback "reading" = true) by reflexivity.
  split; [exact H1|]. split.
  - exact (proj1 (proj2 (onmessage_drops_unknown (Z.eqb 0) parse everyCallback "unexpected")) H1).
  - split; [exact H2|].
    exact (proj2 (proj2 (onmessage_drops_unknown (Z.eqb 0) parse noCallback "reading")) H2).
Defined.
(** The rooms list is cached with room R available.  After the
    mutation to "occupied" succeeds, the next read of the key shows
    "occupied"; when the backend rejects it the cache is as before. *)
Lemma room_status_mutation_sample :
  RequestCache.succeeded stubRequest occupy cachedAvailable = true /\
  fst (RequestCache.read stubRooms "rooms"
         (fst (RequestCache.mutate stubRequest (fun _ => false) (fun e => e) "rooms"
                 occupy cachedAvailable)))
  = Some "occupied"%string /\
  RequestCache.succeeded rejectingRequest occupy cachedAvailable = false /\
  RequestCache.cache
    (fst (RequestCache.mutate rejectingRequest (fun _ => false) (fun e => e) "rooms"
            occupy cachedAvailable))
  = RequestCache.cache cachedAvailable.
Proof.
  assert (H1 : RequestCache.succeeded stubRequest occupy cachedAvailable = true)
    by reflexivity.
  assert (H2 : RequestCache.succeeded rejectingRequest occupy cachedAvailable = false)
    by reflexivity.
  destruct (invalidation_iff_mutation_success stubRequest stubRooms
              (fun _ => false) (fun e => e) "rooms" occupy cachedAvailable)
    as (_ & _ & _ & Hread & _).
  destruct (invalidation_iff_mutation_success rejectingRequest stubRooms
              (fun _ => false) (fun e => e) "rooms" occupy cachedAvailable)
    as (_ & _ & _ & _ & Hkeep).
  split; [exact H1|]. split; [|split; [exact H2|exact (proj1 (Hkeep H2))]].
  apply (Hread H1). reflexivity.
Defined.



(** With a phone number and a PIN typed in, the verification request
    goes out with a [Content-Type] header only. *)
Lemma verify_pin_sample :
  10 <= Z.of_nat (RawFetch.utf16Length (RawFetch.customerPhone typed)) /\
  Z.of_nat (RawFetch.utf16Length (RawFetch.customerPin typed)) = 4 /\
  fst (RawFetch.handlePhoneSearch "verify_pin" (fun _ => tt) (fun _ => ""%string)
         offline typed)
  = [{| RawFetch.method := "POST"; RawFetch.url := "verify_pin";
        RawFetch.headers := [("Content-Type"%string, "application/json"%string)];
        RawFetch.body := Some [("phone"%string, "01012345678"%string);
                               ("pin"%string, "1234"%string)] |}].
Proof.
  assert (H1 : 10 <= Z.of_nat (RawFetch.utf16Length (RawFetch.customerPhone typed)))
    by (vm_compute; discriminate).
  assert (H2 : Z.of_nat (RawFetch.utf16Length (RawFetch.customerPin typed)) = 4)
    by reflexivity.
  split; [exact H1|]. split; [exact H2|].
  exact (proj1 (proj1 (verify_pin_sent_without_bearer "verify_pin" (fun _ => tt)
                         (fun _ => ""%string) offline typed) H1 H2)).
Defined.

(** A phone number of seven full-width digits is too short, though it
    takes 21 bytes: nothing is sent.  A character beyond U+FFFF has
    the length 2. *)
Lemma full_width_phone_is_too_short :
  String.length (RawFetch.customerPhone typedFullWidth) = 21%nat /\
  RawFetch.utf16Length (RawFetch.customerPhone typedFullWidth) = 7%nat /\
  RawFetch.utf16Length "😀" = 2%nat /\
  fst (RawFetch.handlePhoneSearch "verify_pin" (fun _ => tt) (fun _ => ""%string)
         offline typedFullWidth) = [].
Proof. repeat split. Qed.

(** The statement that every outbound request carries the bearer
    credential of the session, and that none is sent without a
    credential, does not hold: the PIN verification goes out without
    an [Authorization] header, signed in or not. *)
Lemma verify_pin_request_lacks_bearer :
  ~ (forall (session : option string) (st : @RawFetch.CustomerAppState unit)
            (fetch : RawFetch.Request -> RawFetch.FetchResult unit),
       let sent := fst (RawFetch.handlePhoneSearch "verify_pin" (fun _ => tt)
                          (fun _ => ""%string) fetch st) in
       match session with
       | Some _ => forall req, In req sent -> RawFetch.carriesBearer session req = true
       | None => sent = []
       end) /\
  RawFetch.carriesBearer (Some "token"%string)
    {| RawFetch.method := "POST"; RawFetch.url := "verify_pin";
       RawFetch.headers := [("Content-Type"%string, "application/json"%string)];
       RawFetch.body := Some [("phone"%string, "01012345678"%string);
                              ("pin"%string, "1234"%string)] |} = false.
Proof.
  split; [|reflexivity].
  intros Hall. specialize (Hall None typed offline).
  cbn in Hall. discriminate Hall.
Qed.
End AtSamples.


(** ** More on the push channel *)

Section PushChannelTraceFacts.
Import PushChannel PushChannelTraces.

Lemma timeout_range (k : nat) : inRange (timeout k).
Proof.
  unfold inRange, timeout.
  assert (0 < 2 ^ Z.of_nat k) by (apply Z.pow_pos_nonneg; lia).
  lia.
Qed.

Lemma timeout_below_cap (k : nat) :
  (k < 5)%nat -> timeout k = 1000 * 2 ^ Z.of_nat k.
Proof.
  intros H. unfold timeout. apply Z.min_l.
  assert (2 ^ Z.of_nat k <= 2 ^ 4) by (apply Z.pow_le_mono_r; lia).
  lia.
Qed.

(** The delay starts at one second, doubles with every attempt up to
    sixteen seconds, is thirty seconds from the fifth attempt on, and
    never decreases. *)
Theorem timeout_doubles_then_caps (k : nat) :
  inRange (timeout k) /\
  timeout k = (if (k <? 5)%nat then 1000 * 2 ^ Z.of_nat k else 30000) /\
  timeout k <= timeout (S k).
Proof.
  split; [apply timeout_range|]. split.
  - destruct (Nat.ltb_spec k 5); [now apply timeout_below_cap|].
    now apply timeout_capped.
  - unfold timeout. apply Z.min_le_compat_r.
    rewrite Nat2Z.inj_succ, Z.pow_succ_r by lia.
    assert (0 < 2 ^ Z.of_nat k) by (apply Z.pow_pos_nonneg; lia). lia.
Qed.

(** What the bookkeeping steps leave as it is. *)
Local Abbreviation same f h :=
  (delays (f h) = delays h /\
   length (sockets (f h)) = length (sockets h) /\
   isConnected (f h) = isConnected h /\
   reconnectAttempts (f h) = reconnectAttempts h /\
   rendered (f h) = rendered h).

Lemma spend_same (t : nat) (h : Hook) : same (spend t) h.
Proof.
  unfold spend. destruct (timers h !! t) as [tm|] eqn:E; [|repeat split].
  unfold delays. cbn. repeat split.
  revert t E. induction (timers h) as [|x l IH]; intros [|t] E;
    try discriminate E; cbn in *.
  - now injection E as ->.
  - f_equal. now apply IH.
Qed.

Lemma setReadyState_same (ws : nat) (state : ReadyState) (h : Hook) :
  same (setReadyState ws state) h.
Proof.
  unfold setReadyState. destruct (sockets h !! ws); [|repeat split].
  cbn. repeat split. apply length_insert.
Qed.

Lemma close_same (ws : nat) (h : Hook) : same (close ws) h.
Proof.
  unfold close. destruct (sockets h !! ws) as [s|]; [|repeat split].
  destruct (readyState s); try (repeat split; fail); apply setReadyState_same.
Qed.

Lemma cleanup_same (h : Hook) : same cleanup h.
Proof.
  unfold cleanup, clearTimeout.
  assert (H : same (fun h => match reconnectTimeoutRef h with
                             | Some t => spend t h | None => h end) h).
  { destruct (reconnectTimeoutRef h); [apply spend_same|repeat split]. }
  cbv beta in H. destruct H as (H1 & H2 & H3 & H4 & H5).
  match goal with |- context [wsRef ?x] => set (h1 := x) in * end.
  destruct (wsRef h1) as [ws|]; [|repeat split; assumption].
  destruct (close_same ws h1) as (K1 & K2 & K3 & K4 & K5).
  repeat split; congruence.
Qed.

Lemma render_spec (h : Hook) :
  delays (render h) = delays h /\
  length (sockets (render h))
  = (length (sockets h)
     + if Nat.eqb (reconnectAttempts h) (rendered h) then 0 else 1)%nat /\
  isConnected (render h) = isConnected h /\
  reconnectAttempts (render h) = reconnectAttempts h /\
  rendered (render h) = reconnectAttempts h.
Proof.
  unfold render. destruct (Nat.eqb_spec (reconnectAttempts h) (rendered h)) as [E|E].
  - repeat split; lia.
  - destruct (cleanup_same h) as (H1 & H2 & H3 & H4 & H5).
    unfold delays in *. cbn. rewrite length_app. cbn. repeat split; try assumption.
    lia.
Qed.

(** One event, from a state in which the effect has run for the
    current counter. *)
Lemma deliver_spec (h h' : Hook) (e : Event) :
  rendered h = reconnectAttempts h ->
  deliver h e = Some h' ->
  rendered h' = reconnectAttempts h' /\
  (exists new, delays h' = delays h ++ new /\
               length new = closes [e] /\ Forall inRange new) /\
  length (sockets h')
  = (length (sockets h)
     + match e with
       | TimerFires _ => 2
       | SocketOpens _ => if Nat.eqb (reconnectAttempts h) 0 then 0 else 1
       | _ => 0
       end)%nat /\
  reconnectAttempts h'
  = match e with
    | SocketOpens _ => 0%nat
    | TimerFires _ => S (reconnectAttempts h)
    | _ => reconnectAttempts h
    end /\
  isConnected h'
  = match e with
    | SocketOpens _ => true
    | SocketCloses _ => false
    | _ => isConnected h
    end.
Proof.
  intros Hr He. destruct e as [ws|ws|ws|t]; cbn [deliver] in He.
  - destruct (sockets h !! ws) as [s|]; [|discriminate].
    destruct (readyState s); try discriminate. injection He as <-.
    destruct (setReadyState_same ws OPEN h) as (H1 & H2 & H3 & H4 & H5).
    match goal with |- context [render ?x] => set (h1 := x) in * end.
    destruct (render_spec h1) as (R1 & R2 & R3 & R4 & R5).
    assert (D : delays h1 = delays h) by exact H1.
    assert (L : length (sockets h1) = length (sockets h)) by exact H2.
    assert (N : rendered h1 = rendered h) by exact H5.
    change (reconnectAttempts h1) with 0%nat in *.
    change (isConnected h1) with true in *.
    rewrite N, Hr in R2. rewrite (Nat.eqb_sym 0) in R2.
    split; [congruence|]. split.
    { exists []. rewrite app_nil_r. repeat split; [congruence|constructor]. }
    repeat split; congruence.
  - destruct (sockets h !! ws) as [s|]; [|discriminate].
    injection He as <-. unfold onerror.
    destruct (render_spec h) as (R1 & R2 & R3 & R4 & R5).
    rewrite Hr, Nat.eqb_refl in R2.
    split; [congruence|]. split.
    { exists []. rewrite app_nil_r. repeat split; [congruence|constructor]. }
    repeat split; (congruence || lia).
  - destruct (sockets h !! ws) as [s|]; [|discriminate].
    assert (He' : Some (render (onclose (ws_reconnectAttempts s)
                                  (setReadyState ws CLOSED h))) = Some h'
                  /\ readyState s <> CLOSED).
    { destruct (readyState s); try discriminate; split; try assumption;
        discriminate. }
    destruct He' as [He' _]. clear He. injection He' as <-.
    destruct (setReadyState_same ws CLOSED h) as (H1 & H2 & H3 & H4 & H5).
    match goal with |- context [render ?x] => set (h1 := x) in * end.
    destruct (render_spec h1) as (R1 & R2 & R3 & R4 & R5).
    assert (D : delays h1 = delays h ++ [timeout (ws_reconnectAttempts s)]).
    { unfold h1, delays, onclose. cbn [timers]. rewrite map_app. cbn [map delay].
      f_equal. exact H1. }
    assert (L : length (sockets h1) = length (sockets h)) by exact H2.
    assert (N : rendered h1 = rendered h) by exact H5.
    assert (A : reconnectAttempts h1 = reconnectAttempts h) by exact H4.
    change (isConnected h1) with false in *.
    rewrite A, N, Hr, Nat.eqb_refl in R2.
    split; [congruence|]. split.
    { exists [timeout (ws_reconnectAttempts s)]. rewrite R1, D.
      repeat split. constructor; [apply timeout_range|constructor]. }
    repeat split; (congruence || lia).
  - destruct (timers h !! t) as [tm|]; [|discriminate].
    destruct (pending tm); [|discriminate]. injection He as <-.
    destruct (spend_same t h) as (H1 & H2 & H3 & H4 & H5).
    match goal with |- context [render ?x] => set (h1 := x) in * end.
    destruct (render_spec h1) as (R1 & R2 & R3 & R4 & R5).
    assert (D : delays h1 = delays h) by exact H1.
    assert (L : length (sockets h1) = S (length (sockets h))).
    { unfold h1, onReconnectTimer, connect. cbn [sockets].
      rewrite length_app. cbn [length]. rewrite H2. lia. }
    assert (N : rendered h1 = rendered h) by exact H5.
    assert (A : reconnectAttempts h1 = S (reconnectAttempts h)).
    { unfold h1, onReconnectTimer, connect. cbn [reconnectAttempts].
      rewrite H4. lia. }
    assert (C : isConnected h1 = isConnected h) by exact H3.
    rewrite A, N, Hr in R2.
    destruct (Nat.eqb_spec (S (reconnectAttempts h)) (reconnectAttempts h)); [lia|].
    split; [congruence|]. split.
    { exists []. rewrite app_nil_r. repeat split; [congruence|constructor]. }
    repeat split; (congruence || lia).
Qed.

(** A close sets the timer from the counter that the socket's
    handlers closed over, whatever the counter of the hook is by then. *)
Lemma close_reads_captured_counter (h h' : Hook) (ws : nat) (s : Socket) :
  sockets h !! ws = Some s ->
  deliver h (SocketCloses ws) = Some h' ->
  delays h' = delays h ++ [timeout (ws_reconnectAttempts s)].
Proof.
  intros Hs He. cbn [deliver] in He. rewrite Hs in He.
  assert (He' : render (onclose (ws_reconnectAttempts s)
                          (setReadyState ws CLOSED h)) = h')
    by (destruct (readyState s); congruence).
  subst h'.
  destruct (setReadyState_same ws CLOSED h) as (H1 & _).
  match goal with |- context [render ?x] => destruct (render_spec x) as (R1 & _) end.
  rewrite R1. unfold delays, onclose in *. cbn [timers].
  rewrite map_app. cbn [map delay]. now rewrite H1.
Qed.

Lemma run_app (es1 es2 : list Event) (h : Hook) :
  run (es1 ++ es2) h
  = match run es1 h with Some h1 => run es2 h1 | None => None end.
Proof.
  revert h. induction es1 as [|e es1 IH]; intros h; [reflexivity|].
  cbn [app run]. destruct (deliver h e); [apply IH|reflexivity].
Qed.

(** What a run adds to the timers and to the sockets. *)
Lemma run_spec (events : list Event) (h h' : Hook) :
  rendered h = reconnectAttempts h ->
  run events h = Some h' ->
  rendered h' = reconnectAttempts h' /\
  (exists new, delays h' = delays h ++ new /\
               length new = closes events /\ Forall inRange new) /\
  (length (sockets h) + 2 * timerFirings events <= length (sockets h')
   <= length (sockets h) + 2 * timerFirings events + opens events)%nat.
Proof.
  revert h. induction events as [|e events IH]; intros h Hr Hrun.
  - injection Hrun as <-. split; [assumption|]. split.
    + exists []. rewrite app_nil_r. repeat split. constructor.
    + unfold timerFirings, opens. cbn. lia.
  - cbn [run] in Hrun. destruct (deliver h e) as [h1|] eqn:E; [|discriminate].
    destruct (deliver_spec h h1 e Hr E)
      as (Hr1 & (new1 & D1 & L1 & F1) & S1 & _ & _).
    destruct (IH h1 Hr1 Hrun) as (Hr' & (new & D & L & F) & S).
    split; [assumption|]. split.
    + exists (new1 ++ new). rewrite D, D1, <- app_assoc. split; [reflexivity|].
      split.
      * rewrite length_app, L1, L. unfold closes. cbn [List.filter].
        destruct (isClose e); cbn [length]; lia.
      * apply Forall_app. now split.
    + unfold timerFirings, opens in *. cbn [List.filter]. rewrite S1 in S.
      destruct e; cbn [isTimer isOpen length]; try lia.
      destruct (Nat.eqb (reconnectAttempts h) 0); lia.
Qed.

(** Without another open, the counter grows with the timers that fire,
    each of which makes two sockets, and the connection shows as open
    until a socket closes. *)
Lemma run_without_open (events : list Event) (h h' : Hook) :
  rendered h = reconnectAttempts h ->
  run events h = Some h' ->
  existsb isOpen events = false ->
  reconnectAttempts h' = (reconnectAttempts h + timerFirings events)%nat /\
  isConnected h' = isConnected h && negb (existsb isClose events) /\
  length (sockets h') = (length (sockets h) + 2 * timerFirings events)%nat.
Proof.
  revert h. induction events as [|e events IH]; intros h Hr Hrun Hno.
  - injection Hrun as <-. unfold timerFirings. cbn. rewrite andb_true_r.
    repeat split; lia.
  - cbn [run] in Hrun. destruct (deliver h e) as [h1|] eqn:E; [|discriminate].
    cbn [existsb] in Hno. apply orb_false_iff in Hno. destruct Hno as [He Hno].
    destruct (deliver_spec h h1 e Hr E) as (Hr1 & _ & S1 & A1 & C1).
    destruct (IH h1 Hr1 Hrun Hno) as (A & C & S).
    rewrite A, C, S, S1, A1, C1. unfold timerFirings.
    destruct e; try discriminate He;
      cbn [List.filter isTimer isClose existsb length orb negb];
      rewrite ?andb_false_r; repeat split; lia.
Qed.

End PushChannelTraceFacts.

(** ** More on inbound messages *)

Section MessageDispatchFacts.
Import Messages MessageKinds.
Context {number : Type}.
Variable falsyNumber : number -> bool.
Variable JSON_parse : string -> option (@JsValue number).

Local Abbreviation Options := (@UseWebSocketOptions number).
Local Abbreviation handle := (onmessage falsyNumber JSON_parse).

(** The effects of handing a message to a registered callback. *)
Lemma dispatch_registered (c : Callback) (f : @Handler number)
    (props : list (string * @JsValue number)) :
  let data := ownProperty "data" props in
  dispatch falsyNumber c (Some f) (JObject props)
  = if toBoolean falsyNumber data
    then ([Called c data], if f data then None else Some tt)
    else ([], Some tt).
Proof.
  intros data. unfold dispatch. cbn [getProperty]. rewrite bind_ret.
  fold data. destruct (toBoolean falsyNumber data); reflexivity.
Qed.

(** A message of a kind whose callback is registered calls that
    callback once, with the message's data, and no other callback;
    when the data is missing or falsy nothing is called; when the
    callback throws, the error goes to the console. *)
Theorem onmessage_calls_registered (options : Options) (text : string)
    (props : list (string * @JsValue number)) (c : Callback) (f : @Handler number) :
  JSON_parse text = Some (JObject props) ->
  ownProperty "type" props = JString (kindName c) ->
  registered options c = Some f ->
  let data := ownProperty "data" props in
  fst (handle options text)
  = if toBoolean falsyNumber data
    then Called c data ::
         (if f data then [ConsoleError "Error parsing WebSocket message:"] else [])
    else [].
Proof.
  intros Hparse Htype Hreg data. unfold onmessage.
  rewrite Hparse, bind_ret. cbn [getProperty]. rewrite bind_ret, Htype.
  destruct c; cbn [kindName isString String.eqb Ascii.eqb Bool.eqb]; cbn [registered] in Hreg;
    rewrite Hreg, dispatch_registered; fold data;
    destruct (toBoolean falsyNumber data); try reflexivity;
    destruct (f data); reflexivity.
Qed.
End MessageDispatchFacts.

(** ** More on the merge buffer *)

Section MergeWindowFacts.
Import JsArray MergeBuffer.
Context {number : Type}.
Variable div10 : number -> number.

Local Abbreviation Point := (@SensorDataPoint number).
Local Abbreviation Reading := (@SensorReading number).
Local Abbreviation ts := (@dp_timestamp number).
Local Abbreviation ascending := (StronglySorted (fun a b : Point => ts a <= ts b)).
Local Abbreviation at_time t := (fun a : Point => ts a =? t).
Local Abbreviation Windows := (gmap string (list Point)).

Implicit Types (l old : list Point) (p q : Point).

(** *** The live window *)

(** Keeping the last 49 and appending is keeping the last 50 of the
    appended array. *)
Lemma slice_49_snoc l p : slice (-49) l ++ [p] = slice (-50) (l ++ [p]).
Proof.
  change (-49) with (- Z.of_nat 49). change (-50) with (- Z.of_nat 50).
  rewrite !slice_last by lia. rewrite length_app. cbn [length].
  rewrite skipn_app.
  replace (length l + 1 - 50)%nat with (length l - 49)%nat by lia.
  replace (length l - 49 - length l)%nat with 0%nat by lia. reflexivity.
Qed.

(** The last 50 of an array only depend on its last 50. *)
Lemma slice_50_app l (more : list Point) :
  slice (-50) (slice (-50) l ++ more) = slice (-50) (l ++ more).
Proof.
  change (-50) with (- Z.of_nat 50). rewrite !slice_last by lia.
  destruct (Nat.le_gt_cases (length l) 50) as [Hle|Hgt].
  - replace (length l - 50)%nat with 0%nat by lia. reflexivity.
  - set (front := firstn (length l - 50) l).
    set (tail := skipn (length l - 50) l).
    assert (Hl : l = front ++ tail) by (symmetry; apply firstn_skipn).
    assert (Hfront : length front = (length l - 50)%nat)
      by (unfold front; rewrite length_firstn; lia).
    assert (Htail : length tail = 50%nat)
      by (unfold tail; rewrite length_skipn; lia).
    replace (l ++ more) with (front ++ (tail ++ more))
      by (rewrite app_assoc, <- Hl; reflexivity).
    rewrite !length_app, Hfront, Htail.
    replace (50 + length more - 50)%nat with (length more) by lia.
    replace (length l - 50 + (50 + length more) - 50)%nat
      with (length front + length more)%nat by lia.
    rewrite (skipn_app (length front + length more) front).
    rewrite (skipn_all2 front) by lia. cbn [app].
    f_equal. lia.
Qed.

Lemma onSensorReading_lookup (reading : Reading) (prev : Windows) (room : string) :
  onSensorReading div10 reading prev !! room
  = if String.eqb (roomId reading) room
    then Some (slice (-50) (default [] (prev !! room) ++ [toDataPoint div10 reading]))
    else prev !! room.
Proof.
  unfold onSensorReading. destruct (String.eqb_spec (roomId reading) room) as [<-|Hne].
  - rewrite lookup_insert_eq, slice_49_snoc. reflexivity.
  - now rewrite lookup_insert_ne.
Qed.

(** A pushed reading becomes the last point of its room's window, which
    then holds at most 50 points, all but the last taken from the end of
    the previous window; the windows of the other rooms stay as they
    are. *)
Theorem onSensorReading_window (reading : Reading) (prev : Windows) :
  let next := onSensorReading div10 reading prev in
  (exists front kept,
     default [] (prev !! roomId reading) = front ++ kept /\
     next !! roomId reading = Some (kept ++ [toDataPoint div10 reading]) /\
     (length kept <= 49)%nat /\
     (front = [] \/ length kept = 49%nat)) /\
  forall room, room <> roomId reading -> next !! room = prev !! room.
Proof.
  intros next. split.
  - unfold next, onSensorReading. rewrite lookup_insert_eq.
    set (old := default [] (prev !! roomId reading)).
    change (-49) with (- Z.of_nat 49). rewrite slice_last by lia.
    exists (firstn (length old - 49) old), (skipn (length old - 49) old).
    split; [symmetry; apply firstn_skipn|]. split; [reflexivity|].
    rewrite length_skipn. split; [lia|].
    destruct (Nat.le_gt_cases (length old) 49).
    + left. replace (length old - 49)%nat with 0%nat by lia. reflexivity.
    + right. lia.
  - intros room Hne. unfold next, onSensorReading. now rewrite lookup_insert_ne.
Qed.

(** After any series of pushed readings, a room that received at
    least one holds the last 50 of its previous window followed by its
    readings in order of arrival; a room that received none is as
    before. *)
Theorem pushAll_window (readings : list Reading) (m : Windows) (room : string) :
  let mine :=
    map (toDataPoint div10)
        (List.filter (fun r => String.eqb (roomId r) room) readings) in
  SensorCards.pushAll div10 readings m !! room
  = match mine with
    | [] => m !! room
    | _ :: _ => Some (slice (-50) (default [] (m !! room) ++ mine))
    end.
Proof.
  revert m. induction readings as [|r readings IH]; intros m; [reflexivity|].
  cbn [List.filter]. change (SensorCards.pushAll div10 (r :: readings) m)
    with (SensorCards.pushAll div10 readings (onSensorReading div10 r m)).
  cbv zeta in IH |- *. rewrite IH, onSensorReading_lookup.
  destruct (String.eqb (roomId r) room); [|reflexivity].
  cbn [map]. unfold default at 1. cbn [from_option]. unfold Datatypes.id.
  destruct (map (toDataPoint div10)
              (List.filter (fun r0 => String.eqb (roomId r0) room) readings))
    as [|p rest]; [reflexivity|].
  rewrite slice_50_app, <- app_assoc. reflexivity.
Qed.
End MergeWindowFacts.

(** ** What the chart shows *)

Section MergeContentFacts.
Import JsArray MergeBuffer.
Context {number : Type}.
Variable div10 : number -> number.

Local Abbreviation Point := (@SensorDataPoint number).
Local Abbreviation Reading := (@SensorReading number).
Local Abbreviation ts := (@dp_timestamp number).
Local Abbreviation ascending := (StronglySorted (fun a b : Point => ts a <= ts b)).
Local Abbreviation at_time t := (fun a : Point => ts a =? t).
Local Abbreviation Windows := (gmap string (list Point)).
Local Abbreviation deduplicated dbData wsData :=
  (dropRepeated [] (sort byTimestamp (dbData ++ wsData))).

Implicit Types (l dbData wsData : list Point) (p q : Point).

Lemma ascending_app_le l1 l2 p q :
  ascending (l1 ++ l2) -> In p l1 -> In q l2 -> ts p <= ts q.
Proof.
  induction l1 as [|x l1 IH]; [contradiction|].
  cbn [app]. intros Hasc [->|Hp] Hq.
  - inversion Hasc as [|? ? _ Hall]; subst.
    rewrite List.Forall_forall in Hall. apply Hall, in_or_app. now right.
  - apply IH; [now inversion Hasc|assumption|assumption].
Qed.

Lemma distinct_app_ne l1 l2 p q :
  NoDup (map ts (l1 ++ l2)) -> In p l1 -> In q l2 -> ts p <> ts q.
Proof.
  rewrite map_app. intros Hnd Hp Hq Heq.
  apply NoDup_app in Hnd. destruct Hnd as (_ & Hdisj & _).
  apply (Hdisj (ts p)).
  - rewrite list_elem_of_In. now apply in_map.
  - rewrite Heq, list_elem_of_In. now apply in_map.
Qed.

Lemma deduplicated_In dbData wsData p :
  In p (deduplicated dbData wsData) -> In p (dbData ++ wsData).
Proof.
  intros H. apply dropRepeated_In in H. exact (proj1 (sort_In ts p _) H).
Qed.

(** Every timestamp of the input survives the deduplication. *)
Lemma deduplicated_covers dbData wsData p :
  In p (dbData ++ wsData) ->
  exists q, In q (deduplicated dbData wsData) /\ ts q = ts p.
Proof.
  intros Hp. apply (proj2 (sort_In ts p _)) in Hp.
  change (fun a b : Point => ts a - ts b) with (@byTimestamp number) in Hp.
  destruct (List.filter (at_time (ts p)) (sort byTimestamp (dbData ++ wsData)))
    as [|q tl] eqn:E.
  - assert (Hin : In p (List.filter (at_time (ts p))
                          (sort byTimestamp (dbData ++ wsData)))).
    { apply filter_In. split; [exact Hp|apply Z.eqb_refl]. }
    rewrite E in Hin. contradiction.
  - assert (Hq : In q (List.filter (at_time (ts p))
                         (sort byTimestamp (dbData ++ wsData))))
      by (rewrite E; now left).
    apply filter_In in Hq. destruct Hq as [_ Hts]. apply Z.eqb_eq in Hts.
    exists q. split; [|exact Hts].
    apply (dropRepeated_keeps_first [] _ q tl); [reflexivity|].
    now rewrite Hts.
Qed.

Lemma mergePoints_split dbData wsData :
  exists dropped,
    deduplicated dbData wsData = dropped ++ mergePoints dbData wsData /\
    (dropped = [] \/ length (mergePoints dbData wsData) = 50%nat).
Proof.
  rewrite mergePoints_unfold, slice_last by lia.
  set (D := deduplicated dbData wsData).
  exists (firstn (length D - 50) D). split; [symmetry; apply firstn_skipn|].
  rewrite length_skipn.
  destruct (Nat.le_gt_cases (length D) 50).
  - left. replace (length D - 50)%nat with 0%nat by lia. reflexivity.
  - right. lia.
Qed.

Lemma mergePoints_sound dbData wsData p :
  In p (mergePoints dbData wsData) -> In p (dbData ++ wsData).
Proof.
  intros Hp. destruct (mergePoints_split dbData wsData) as (dropped & Hsplit & _).
  apply deduplicated_In. rewrite Hsplit. apply in_or_app. now right.
Qed.

Lemma mergePoints_complete dbData wsData p :
  In p (dbData ++ wsData) ->
  (exists q, In q (mergePoints dbData wsData) /\ ts q = ts p) \/
  (length (mergePoints dbData wsData) = 50%nat /\
   forall q, In q (mergePoints dbData wsData) -> ts p < ts q).
Proof.
  intros Hp. destruct (deduplicated_covers dbData wsData p Hp) as (q & Hq & Hts).
  destruct (mergePoints_split dbData wsData) as (dropped & Hsplit & Hfull).
  rewrite Hsplit in Hq. apply in_app_or in Hq. destruct Hq as [Hq|Hq].
  - right. destruct Hfull as [->|Hfull]; [contradiction|].
    split; [exact Hfull|]. intros q' Hq'.
    assert (Hasc : ascending (dropped ++ mergePoints dbData wsData)).
    { rewrite <- Hsplit. apply dropRepeated_ascending, combined_ascending. }
    assert (Hnd : NoDup (map ts (dropped ++ mergePoints dbData wsData))).
    { rewrite <- Hsplit. apply dropRepeated_NoDup. }
    pose proof (ascending_app_le _ _ q q' Hasc Hq Hq').
    pose proof (distinct_app_ne _ _ q q' Hnd Hq Hq'). lia.
  - left. exists q. split; assumption.
Qed.

(** The chart shows input points only, and it shows the most recent
    timestamps: a timestamp of the input is either on the chart or
    older than each of the 50 that are. *)
Theorem mergePoints_most_recent dbData wsData :
  (forall p, In p (mergePoints dbData wsData) -> In p (dbData ++ wsData)) /\
  (forall p, In p (dbData ++ wsData) ->
     (exists q, In q (mergePoints dbData wsData) /\ dp_timestamp q = dp_timestamp p) \/
     (length (mergePoints dbData wsData) = 50%nat /\
      forall q, In q (mergePoints dbData wsData) -> dp_timestamp p < dp_timestamp q)).
Proof.
  split; [apply mergePoints_sound|apply mergePoints_complete].
Qed.

(** *** Independence of the order of arrival *)

Lemma filter_at_most_one t l :
  NoDup (map ts l) ->
  List.filter (at_time t) l = [] \/ exists p, List.filter (at_time t) l = [p].
Proof.
  induction l as [|x l IH]; [now left|].
  cbn [map List.filter]. intros Hnd. apply NoDup_cons in Hnd.
  destruct Hnd as [Hx Hnd]. rewrite list_elem_of_In in Hx.
  destruct (ts x =? t) eqn:E; [|now apply IH].
  apply Z.eqb_eq in E. right. exists x. f_equal.
  apply filter_absent. intros y Hy. apply Z.eqb_neq. intros Hyt.
  apply Hx. rewrite E, <- Hyt. now apply in_map.
Qed.

(** When no two input points share a timestamp, the chart does not
    depend on how the points are distributed over the two sources nor
    on their order. *)
Theorem mergePoints_order_independent dbData wsData dbData' wsData' :
  Permutation (dbData ++ wsData) (dbData' ++ wsData') ->
  NoDup (map dp_timestamp (dbData ++ wsData)) ->
  mergePoints dbData wsData = mergePoints dbData' wsData'.
Proof.
  intros Hperm Hnd. rewrite !mergePoints_unfold. do 2 f_equal.
  assert (Hnd' : NoDup (map ts (dbData' ++ wsData'))).
  { apply NoDup_ListNoDup. apply NoDup_ListNoDup in Hnd.
    eapply Permutation_NoDup; [|exact Hnd]. now apply Permutation_map. }
  apply (sort_stable_unique ts); [apply combined_ascending|apply combined_ascending|].
  intros t.
  change (@byTimestamp number) with (fun a b : Point => ts a - ts b).
  rewrite !(sort_stable ts).
  assert (Hin : forall p, In p (List.filter (at_time t) (dbData ++ wsData)) <->
                          In p (List.filter (at_time t) (dbData' ++ wsData'))).
  { intros p. rewrite !filter_In. split; intros [H1 H2]; (split; [|exact H2]).
    - eapply Permutation_in; [exact Hperm|exact H1].
    - eapply Permutation_in; [symmetry; exact Hperm|exact H1]. }
  destruct (filter_at_most_one t _ Hnd) as [E1|[p E1]],
           (filter_at_most_one t _ Hnd') as [E2|[q E2]];
    rewrite E1, E2 in *; try reflexivity.
  - exfalso. apply (proj2 (Hin q)). now left.
  - exfalso. apply (proj1 (Hin p)). now left.
  - f_equal. destruct (proj1 (Hin p)) as [<-|[]]; [now left|reflexivity].
Qed.
End MergeContentFacts.

(** ** A pushed reading on the chart *)

Section PushThenChartFacts.
Import JsArray MergeBuffer.
Context {number Room Lifecycle : Type}.
Variable div10 : number -> number.
Variable toLocaleTimeString : Z -> string.
Variable id : Room -> string.

Local Abbreviation Point := (@SensorDataPoint number).
Local Abbreviation Reading := (@SensorReading number).
Local Abbreviation ts := (@dp_timestamp number).
Local Abbreviation ascending := (StronglySorted (fun a b : Point => ts a <= ts b)).
Local Abbreviation Windows := (gmap string (list Point)).

(** In an ascending array without repeated timestamps, the point with
    the greatest timestamp is the last one. *)
Lemma last_of_ascending (l : list Point) (p : Point) :
  ascending l -> NoDup (map ts l) -> In p l ->
  (forall q, In q l -> ts q <= ts p) ->
  last l = Some p.
Proof.
  induction l as [|x l IH]; [contradiction|].
  intros Hasc Hnd Hp Hmax. destruct l as [|y l].
  - destruct Hp as [->|[]]. reflexivity.
  - change (last (x :: y :: l)) with (last (y :: l)).
    cbn [map] in Hnd. apply NoDup_cons in Hnd. destruct Hnd as [Hx Hnd].
    inversion Hasc as [|? ? Hasc' Hall]; subst.
    apply IH; [exact Hasc'|exact Hnd| |intros q Hq; apply Hmax; now right].
    destruct Hp as [<-|Hp]; [|exact Hp]. exfalso.
    rewrite List.Forall_forall in Hall.
    assert (ts x <= ts y) by (apply Hall; now left).
    assert (ts y <= ts x) by (apply Hmax; right; now left).
    apply Hx. rewrite list_elem_of_In. cbn [map].
    left. lia.
Qed.

(** A pushed reading that is newer than everything the page holds for
    its room is the last point of the room's chart from then on,
    whatever the historical batch and the previous window are. *)
Theorem pushed_reading_is_last_point (reading : Reading) (prev : Windows)
    (readings : list Reading) :
  (forall h, In h readings -> timestamp h < timestamp reading) ->
  (forall w, In w (default [] (prev !! roomId reading)) ->
             dp_timestamp w < timestamp reading) ->
  last (chartPoints div10 (onSensorReading div10 reading prev)
          (roomId reading) readings)
  = Some (toDataPoint div10 reading).
Proof.
  intros Hdb Hws. unfold chartPoints.
  rewrite (onSensorReading_lookup div10). rewrite String.eqb_refl.
  unfold default at 1. cbn [from_option]. unfold Datatypes.id.
  set (old := default [] (prev !! roomId reading)) in *.
  set (p := toDataPoint div10 reading).
  set (dbData := map (toDataPoint div10) readings).
  set (wsData := slice (-50) (old ++ [p])).
  assert (Hinputs : forall q, In q (dbData ++ wsData) -> q = p \/ ts q < ts p).
  { intros q Hq. apply in_app_or in Hq. destruct Hq as [Hq|Hq].
    - right. apply in_map_iff in Hq. destruct Hq as (h & <- & Hh).
      exact (Hdb h Hh).
    - destruct (slice_last_suffix 50 (old ++ [p])) as [front Hfront]; [lia|].
      assert (Hq' : In q (old ++ [p])).
      { rewrite Hfront. apply in_or_app. now right. }
      apply in_app_or in Hq'. destruct Hq' as [Hq'|[<-|[]]]; [right|now left].
      exact (Hws q Hq'). }
  assert (Hp : In p (dbData ++ wsData)).
  { apply in_or_app. right. unfold wsData.
    change (-50) with (- Z.of_nat 50). rewrite slice_last by lia.
    rewrite length_app. cbn [length]. rewrite skipn_app.
    apply in_or_app. right.
    replace (length old + 1 - 50 - length old)%nat with 0%nat by lia. now left. }
  apply last_of_ascending.
  - apply mergePoints_ascending.
  - apply mergePoints_NoDup.
  - destruct (mergePoints_complete dbData wsData p Hp) as [(q & Hq & Hts)|[Hlen Hall]].
    + destruct (Hinputs q (mergePoints_sound _ _ q Hq)) as [->|Hlt]; [exact Hq|lia].
    + destruct (mergePoints dbData wsData) as [|q rest] eqn:E; [discriminate|].
      assert (Hq : In q (q :: rest)) by now left.
      specialize (Hall q Hq). rewrite <- E in Hq.
      destruct (Hinputs q (mergePoints_sound _ _ q Hq)) as [->|Hlt]; lia.
  - intros q Hq.
    destruct (Hinputs q (mergePoints_sound _ _ q Hq)) as [->|Hlt]; lia.
Qed.

(** The chart of a room card is drawn only when the body of the
    sensor-data response lists a reading: if that request is answered
    with a non-success status, or with an empty list, the chart is
    empty whatever the readings request and the live window hold. *)
Theorem chart_needs_latest_reading
    (fetchSensorData : string -> Polling.FetchResult
                         (@Polling.RoomWithSensorData Reading Lifecycle))
    (fetchReadings : string -> Polling.FetchResult (list Reading))
    (r : Room) (entry : @Polling.RoomSensorData Room Reading Lifecycle)
    (sensorDataMap : Windows) :
  Polling.sensorDataOf id fetchSensorData fetchReadings r = Polling.Resolved entry ->
  SensorCards.chartData div10 toLocaleTimeString id sensorDataMap entry
  = match fetchSensorData ("/api/rooms/" ++ id r ++ "/sensor-data")%string with
    | Polling.Response true (Some body) =>
        match Polling.sensorReadings body with
        | _ :: _ =>
            getChartData div10 toLocaleTimeString sensorDataMap (id r)
              (match fetchReadings ("/api/sensor/readings/" ++ id r ++ "?limit=50")%string with
               | Polling.Response true (Some history) => history
               | _ => []
               end)
        | [] => []
        end
    | _ => []
    end.
Proof.
  unfold Polling.sensorDataOf, SensorCards.chartData.
  destruct (fetchSensorData _) as [|[] [body|]];
    destruct (fetchReadings _) as [|[] [history|]]; cbn;
    intros H; try discriminate H; injection H as <-; cbn;
    try reflexivity; destruct (Polling.sensorReadings body); reflexivity.
Qed.
End PushThenChartFacts.

(** ** More on the requests sent with [fetch] directly *)

Section RawFetchOutcomeFacts.
Import RawFetch.
Context {Alert Customer Json : Type}.
Variable id : Alert -> string.
Variable VERIFY_PIN : string.
Variable asCustomer : Json -> Customer.
Variable errorText : Json -> string.

Local Abbreviation State := (@CustomerAppState Customer).
Local Abbreviation search := (handlePhoneSearch VERIFY_PIN asCustomer errorText).
Local Abbreviation others alertId :=
  (List.filter (fun a : Alert => negb (String.eqb (id a) alertId))).

Lemma others_In (alertId : string) (alerts : list Alert) (a : Alert) :
  In a (others alertId alerts) <-> In a alerts /\ id a <> alertId.
Proof.
  rewrite filter_In. destruct (String.eqb_spec (id a) alertId); cbn;
    intuition congruence.
Qed.

Lemma others_twice (alertId : string) (alerts : list Alert) :
  others alertId (others alertId alerts) = others alertId alerts.
Proof.
  induction alerts as [|a alerts IH]; [reflexivity|].
  cbn [List.filter]. destruct (negb (String.eqb (id a) alertId)) eqn:E;
    [|exact IH].
  cbn [List.filter]. now rewrite E, IH.
Qed.

(** Dismissing an alert sends one request.  Whatever the server
    answers, success status or not, the alert leaves the page and the
    other alerts stay; dismissing it again changes nothing more.  Only
    when the request cannot be made does the list stay as it is. *)
Theorem dismissAlert_removes_when_answered
    (fetch : Request -> FetchResult Json) (alertId : string) (alerts : list Alert) :
  let req := {| method := "PATCH"; url := "/api/alerts/" ++ alertId ++ "/dismiss";
                headers := []; body := None |} in
  let shown := snd (dismissAlert id fetch alertId alerts) in
  fst (dismissAlert id fetch alertId alerts) = [req] /\
  (fetch req = NetworkError -> shown = alerts) /\
  (forall ok json, fetch req = Response ok json ->
     (forall a, In a shown <-> In a alerts /\ id a <> alertId) /\
     snd (dismissAlert id fetch alertId shown) = shown).
Proof.
  intros req shown. unfold shown, dismissAlert. fold req.
  destruct (fetch req) as [|ok json] eqn:E; cbn [fst snd].
  - split; [reflexivity|]. split; [reflexivity|]. intros; discriminate.
  - split; [reflexivity|]. split; [discriminate|]. intros _ _ _.
    split; [intros a; apply others_In|apply others_twice].
Qed.

(** The phone number and the PIN stay as typed.  When the phone
    number is shorter than 10 or the PIN has not the length 4 nothing
    is sent, the customer shown before stays and an error message
    appears.  Otherwise one request is sent; a customer is shown only
    after a success response with a readable body, and then no error
    is shown; after any other answer, or none, no customer is shown
    and an error message is. *)
Theorem handlePhoneSearch_outcomes
    (fetch : Request -> FetchResult Json) (st : State) :
  let sent := fst (search fetch st) in
  let st' := snd (search fetch st) in
  let req := {| method := "POST";
                url := VERIFY_PIN;
                headers := [("Content-Type", "application/json")];
                body := Some [("phone", customerPhone st); ("pin", customerPin st)] |} in
  customerPhone st' = customerPhone st /\
  customerPin st' = customerPin st /\
  ((utf16Length (customerPhone st) < 10)%nat \/ utf16Length (customerPin st) <> 4%nat ->
   sent = [] /\
   currentCustomer st' = currentCustomer st /\
   pinError st' <> ""%string) /\
  ((10 <= utf16Length (customerPhone st))%nat -> utf16Length (customerPin st) = 4%nat ->
   sent = [req] /\
   match fetch req with
   | Response true (Some json) =>
       currentCustomer st' = Some (asCustomer json) /\ pinError st' = ""%string
   | _ => currentCustomer st' = None /\ pinError st' <> ""%string
   end).
Proof.
  intros sent st' req. unfold sent, st', handlePhoneSearch.
  destruct (Z.ltb_spec (Z.of_nat (utf16Length (customerPhone st))) 10) as [Hphone|Hphone].
  { cbn. split; [reflexivity|]. split; [reflexivity|]. split.
    - intros _. repeat split. discriminate.
    - intros; lia. }
  destruct (Z.eqb_spec (Z.of_nat (utf16Length (customerPin st))) 4) as [Hpin|Hpin];
    cbn [negb].
  2: { cbn. split; [reflexivity|]. split; [reflexivity|]. split.
       - intros _. repeat split. discriminate.
       - intros; lia. }
  cbn [setPinError customerPhone customerPin]. fold req.
  destruct (fetch req) as [|[] [json|]] eqn:E; cbn;
    (split; [reflexivity|]); (split; [reflexivity|]);
    (split; [intros; lia|]); intros _ _;
    (split; [reflexivity|]); split; try reflexivity; try discriminate.
  destruct (String.eqb_spec (errorText json) ""); [discriminate|assumption].
Qed.
End RawFetchOutcomeFacts.

(** ** Rooms *)

Section RoomFacts.
Import Rooms.

Lemma remaining_parts (diff : Z) :
  0 < diff ->
  let hours := diff / (1000 * 60 * 60) in
  let minutes := (diff mod (1000 * 60 * 60)) / (1000 * 60) in
  0 <= hours /\ 0 <= minutes < 60 /\
  (hours * 60 + minutes) * 60000 <= diff < (hours * 60 + minutes + 1) * 60000.
Proof.
  intros Hdiff hours minutes.
  change (1000 * 60 * 60) with 3600000 in *. change (1000 * 60) with 60000 in *.
  pose proof (Z.div_mod diff 3600000 ltac:(lia)) as Hd.
  pose proof (Z.mod_pos_bound diff 3600000 ltac:(lia)) as Hm.
  pose proof (Z.div_mod (diff mod 3600000) 60000 ltac:(lia)) as Hd'.
  pose proof (Z.mod_pos_bound (diff mod 3600000) 60000 ltac:(lia)) as Hm'.
  assert (0 <= hours) by (apply Z.div_pos; lia).
  assert (0 <= minutes) by (apply Z.div_pos; lia).
  assert (minutes < 60) by (apply Z.div_lt_upper_bound; lia).
  unfold hours, minutes in *. lia.
Qed.

(** The remaining cooldown is empty for a room that is not in cooldown
    or has no end time, reads "done" from the end time on, and before
    that shows whole hours and minutes: the minutes are below 60 and
    the time shown is the remaining time rounded down to the minute. *)
Theorem getRemainingCooldown_shows_whole_minutes (now : Z) (room : Room) :
  (status room <> "cooldown"%string \/ cooldownUntil room = None ->
   getRemainingCooldown now room = ""%string) /\
  (forall cooldownEnd,
     status room = "cooldown"%string -> cooldownUntil room = Some cooldownEnd ->
     (cooldownEnd <= now -> getRemainingCooldown now room = "완료"%string) /\
     (now < cooldownEnd ->
      exists hours minutes,
        getRemainingCooldown now room
        = (pretty hours ++ "시간 " ++ pretty minutes ++ "분 남음")%string /\
        0 <= hours /\ 0 <= minutes < 60 /\
        (hours * 60 + minutes) * 60000 <= cooldownEnd - now
          < (hours * 60 + minutes + 1) * 60000)).
Proof.
  unfold getRemainingCooldown. split.
  - intros [Hstatus|Hnone].
    + destruct (String.eqb_spec (status room) "cooldown"); [contradiction|].
      reflexivity.
    + rewrite Hnone. now destruct (negb _).
  - intros cooldownEnd Hstatus Hend. rewrite Hstatus, Hend. cbn [String.eqb negb].
    change (negb ("cooldown" =? "cooldown")%string) with false. cbv iota.
    split; intros Hcmp.
    + destruct (Z.leb_spec (cooldownEnd - now) 0); [reflexivity|lia].
    + destruct (Z.leb_spec (cooldownEnd - now) 0); [lia|].
      eexists _, _. split; [reflexivity|].
      apply remaining_parts. lia.
Qed.

(** Of the rooms shown, those counted as available and those counted
    as occupied never add up to more than the total, and they add up
    to the total exactly when every room is one or the other. *)
Theorem room_counts_within_total (rooms : list Room) :
  (getAvailableRooms rooms + getOccupiedRooms rooms <= length rooms)%nat /\
  ((getAvailableRooms rooms + getOccupiedRooms rooms = length rooms)%nat <->
   forall room, In room rooms ->
     status room = "available"%string \/ status room = "occupied"%string).
Proof.
  unfold getAvailableRooms, getOccupiedRooms.
  induction rooms as [|r rooms [IHle IHeq]]; [cbn; intuition lia|].
  cbn [List.filter length].
  destruct (String.eqb_spec (status r) "available") as [Ha|Ha];
    destruct (String.eqb_spec (status r) "occupied") as [Ho|Ho];
    try (rewrite Ha in Ho; discriminate Ho); cbn [length]; (split; [lia|]).
  - split.
    + intros H room [<-|Hin]; [now left|]. apply IHeq; [lia|exact Hin].
    + intros H. assert (forall room, In room rooms ->
        status room = "available"%string \/ status room = "occupied"%string)
        by (intros; apply H; now right).
      apply IHeq in H0. lia.
  - split.
    + intros H room [<-|Hin]; [now right|]. apply IHeq; [lia|exact Hin].
    + intros H. assert (forall room, In room rooms ->
        status room = "available"%string \/ status room = "occupied"%string)
        by (intros; apply H; now right).
      apply IHeq in H0. lia.
  - split; [intros H; lia|].
    intros H. destruct (H r) as [?|?]; [now left|contradiction|contradiction].
Qed.
End RoomFacts.

(** ** A room put in cooldown *)

Section CooldownFacts.
Import RequestCache.
Context {Value Server Failure : Type}.
Variable apiRequest :
  string -> string -> string * option Z -> Server -> Server * (Value + Failure).
Variable isUnauthorizedError : Failure -> bool.
Variable message : Failure -> string.
Variable ROOMS_LIST : string.

Local Abbreviation World := (@World Value Server).
Local Abbreviation change :=
  (handleStatusChange apiRequest isUnauthorizedError message ROOMS_LIST).

(** A change to "cooldown" asks the backend for a cooldown that ends
    four hours after the click, any other change for none.  A room
    that carries this end time reads "4 hours 0 minutes" at the time of
    the click and "done" from four hours later on. *)
Theorem cooldown_lasts_four_hours (now : Z) (room newStatus : string) (w : World) :
  fst (change now room newStatus w)
  = fst (mutate apiRequest isUnauthorizedError message ROOMS_LIST
           {| roomId := room; status := newStatus;
              cooldownUntil := if String.eqb newStatus "cooldown"
                               then Some (now + 14400000) else None |} w) /\
  forall r : Rooms.Room,
    Rooms.status r = "cooldown"%string ->
    Rooms.cooldownUntil r = Some (now + 14400000) ->
    Rooms.getRemainingCooldown now r = "4시간 0분 남음"%string /\
    forall later, now + 14400000 <= later ->
                  Rooms.getRemainingCooldown later r = "완료"%string.
Proof.
  split; [reflexivity|].
  intros r Hstatus Hend. unfold Rooms.getRemainingCooldown.
  rewrite Hstatus, Hend.
  change (negb ("cooldown" =? "cooldown")%string) with false. cbv iota.
  split.
  - replace (now + 14400000 - now) with 14400000 by lia. reflexivity.
  - intros later Hlater.
    destruct (Z.leb_spec (now + 14400000 - later) 0); [reflexivity|lia].
Qed.
End CooldownFacts.

(** ** The signed-in customer's bookings and the room cards *)

Section CustomerPageFacts.
Import CustomerPage.
Context {Room Reading : Type}.
Variable id : Room -> string.
Variable sensorsByRoom : string -> Z -> string.

Lemma find_filter {A : Type} (f g : A -> bool) (l : list A) :
  List.find g (List.filter f l) = List.find (fun x => f x && g x) l.
Proof.
  induction l as [|x l IH]; [reflexivity|].
  cbn [List.filter List.find]. destruct (f x); cbn [andb List.find]; [|exact IH].
  destruct (g x); [reflexivity|exact IH].
Qed.

(** The booking shown as current is the first of the customer's
    bookings of today that is in progress; there is none exactly when
    none of them is in progress. *)
Theorem current_booking_among_mine (currentCustomer : option Customer)
    (todayBookings : list Booking) :
  let mine := getMyTodayBookings currentCustomer todayBookings in
  getCurrentBooking currentCustomer todayBookings
  = List.find (fun b => String.eqb (status b) "in_progress") mine /\
  (getCurrentBooking currentCustomer todayBookings = None <->
   forall b, In b mine -> status b <> "in_progress"%string).
Proof.
  intros mine.
  assert (Heq : getCurrentBooking currentCustomer todayBookings
                = List.find (fun b => String.eqb (status b) "in_progress") mine).
  { unfold mine, getCurrentBooking, getMyTodayBookings.
    destruct currentCustomer as [c|]; [|reflexivity].
    symmetry. apply find_filter. }
  split; [exact Heq|]. rewrite Heq. split.
  - intros Hnone b Hb Hstatus.
    apply (find_none _ _ Hnone) in Hb. cbv beta in Hb.
    rewrite Hstatus in Hb. discriminate Hb.
  - intros Hall. destruct (List.find _ mine) as [b|] eqn:E; [|reflexivity].
    apply find_some in E. destruct E as [Hb Hstatus].
    apply String.eqb_eq in Hstatus. destruct (Hall b Hb Hstatus).
Qed.

(** What a room's own request returned, as the room card reads it. *)
Lemma latestOf_reading (fetch : string -> Polling.FetchResult (list Reading)) (room : Room) :
  Polling.latestOf id sensorsByRoom fetch room
  = Polling.Resolved
      {| Polling.roomId := id room;
         Polling.reading :=
           match fetch (sensorsByRoom (id room) 1) with
           | Polling.Response true (Some (r :: _)) => Some r
           | _ => None
           end |}.
Proof.
  unfold Polling.latestOf.
  destruct (fetch (sensorsByRoom (id room) 1)) as [|[] [[|r rest]|]]; reflexivity.
Qed.

(** After a poll every room card finds the entry of its room, and the
    reading it shows is the first one its own request returned:
    nothing when that request failed or returned an empty list, even
    when two rooms share an id. *)
Theorem room_card_reads_own_request
    (fetch : string -> Polling.FetchResult (list Reading)) (rooms : list Room) :
  exists entries,
    Polling.customerQueryFn id sensorsByRoom fetch rooms = Polling.Resolved entries /\
    map Polling.roomId entries = map id rooms /\
    forall room, In room rooms ->
      readingFor entries (id room)
      = match fetch (sensorsByRoom (id room) 1) with
        | Polling.Response true (Some (r :: _)) => Some r
        | _ => None
        end.
Proof.
  unfold Polling.customerQueryFn.
  induction rooms as [|x rooms (entries & Hentries & Hids & Hread)].
  - exists []. repeat split. intros room [].
  - cbn [map Polling.Promise_all]. rewrite latestOf_reading, Hentries.
    eexists. split; [reflexivity|]. split; [cbn; now rewrite Hids|].
    intros room Hroom. unfold readingFor. cbn [List.find Polling.roomId].
    destruct (String.eqb_spec (id x) (id room)) as [Heq|Hne].
    + cbn. now rewrite Heq.
    + destruct Hroom as [->|Hroom]; [contradiction|].
      apply Hread, Hroom.
Qed.
End CustomerPageFacts.

(** ** The pass form *)

Section PassFormFacts.
Import JsNumber PassForm.

(** An integer below 2^53 in size is a double. *)
Lemma round_exact (x : Z) : - 2 ^ 53 < x < 2 ^ 53 -> round x = Int x.
Proof.
  intros H. unfold round, nearest.
  assert (Hbig : 2 ^ 53 < 2 ^ 1024) by (apply Z.pow_lt_mono_r; lia).
  destruct (Z.ltb_spec (Z.abs x) (2 ^ 53)); [|lia].
  destruct (Z.leb_spec (2 ^ 1024) (Z.abs x)); [lia|].
  f_equal. destruct x; reflexivity.
Qed.

Lemma strictEquals_refl (a : number) :
  strictEquals a a = true <-> a <> NaN.
Proof.
  destruct a as [|s|z]; cbn.
  - split; [discriminate|congruence].
  - split; [discriminate|]. intros _. now destruct s.
  - rewrite Z.eqb_refl. split; [discriminate|reflexivity].
Qed.

Lemma pricePerSession_exact (s : Z) :
  0 <= s -> 27000 * s < 2 ^ 53 ->
  pricePerSession (Int s) = Int (Z.max 27000 (300000 - s * 3000)).
Proof.
  intros H0 H. unfold pricePerSession. cbn [mul].
  change (2 ^ 53) with 9007199254740992 in H.
  rewrite round_exact by (change (2 ^ 53) with 9007199254740992; lia).
  cbn [sub].
  rewrite round_exact by (change (2 ^ 53) with 9007199254740992; lia).
  reflexivity.
Qed.

Lemma membership_price (sessions : number) (form : FormValues) :
  passType form = "membership"%string ->
  purchasePrice (handleSessionsChange sessions form)
  = Number (mul sessions (pricePerSession sessions)).
Proof. intros H. unfold handleSessionsChange. rewrite H. reflexivity. Qed.

Lemma membership_price_exact (s : Z) (form : FormValues) :
  passType form = "membership"%string ->
  0 <= s -> 27000 * s < 2 ^ 53 ->
  purchasePrice (handleSessionsChange (Int s) form)
  = Number (Int (s * Z.max 27000 (300000 - s * 3000))).
Proof.
  intros Hm H0 H. rewrite membership_price, pricePerSession_exact by assumption.
  cbn [mul]. rewrite round_exact; [reflexivity|].
  change (2 ^ 53) with 9007199254740992 in *.
  destruct (Z.max_spec 27000 (300000 - s * 3000)) as [[? ->]|[? ->]]; nia.
Qed.

(** The membership price that the form computes for a number of
    sessions whose price at 27000 a session is below 2^53, where the
    doubles of the computation are exact: never below 27000 a session
    and exactly that from 91 sessions on; at most 7,500,000 in total
    up to 277 sessions, which is the price of 50 sessions; and between
    50 and 91 sessions every additional session lowers the total. *)
Theorem membership_price_peaks_at_fifty (form : FormValues) :
  passType form = "membership"%string ->
  let price (sessions : Z) :=
    purchasePrice (handleSessionsChange (Int sessions) form) in
  (forall s, 0 <= s -> 27000 * s < 2 ^ 53 ->
     exists p, price s = Number (Int p) /\
               27000 * s <= p /\
               (s <= 277 -> p <= 7500000) /\
               (91 <= s -> p = 27000 * s)) /\
  price 50 = Number (Int 7500000) /\
  (forall s s', 50 <= s -> s < s' -> s' <= 91 ->
     exists p p', price s = Number (Int p) /\ price s' = Number (Int p') /\
                  p' < p).
Proof.
  intros Hmember price. unfold price.
  split; [|split].
  - intros s H0 H. eexists. split; [now apply membership_price_exact|].
    split; [nia|]. split.
    + intros Hs. pose proof (Z.square_nonneg (s - 50)) as Hsq.
      destruct (Z.max_spec 27000 (300000 - s * 3000)) as [[_ ->]|[_ ->]]; nia.
    + intros Hs. rewrite Z.max_l by lia. lia.
  - rewrite membership_price_exact; [reflexivity|assumption|lia|reflexivity].
  - intros s s' H1 H2 H3.
    assert (forall k, 50 <= k <= 91 -> 27000 * k < 2 ^ 53)
      by (intros k Hk; change (2 ^ 53) with 9007199254740992; lia).
    eexists. eexists.
    split; [apply membership_price_exact; [assumption|lia|apply H; lia]|].
    split; [apply membership_price_exact; [assumption|lia|apply H; lia]|].
    rewrite !Z.max_r by lia.
    assert (0 < (s' - s) * (s + s' - 100)) by (apply Z.mul_pos_pos; lia).
    nia.
Qed.

(** What every edit of the form preserves. *)
Local Abbreviation coherent form :=
  (remainingSessions form = totalSessions form /\
   (passType form = "day_pass"%string \/ passType form = "membership"%string) /\
   (passType form = "day_pass"%string -> totalSessions form = Int 1)).

Lemma edit_coherent (form : FormValues) (e : Edit) :
  coherent form -> coherent (edit form e).
Proof.
  intros (Hrem & Htype & Hday).
  destruct e as [phone|[]|value|price|]; cbn [edit].
  - cbn. auto.
  - cbn. auto.
  - unfold handlePassTypeChange. cbn. repeat split; auto. discriminate.
  - destruct (String.eqb_spec (passType form) "day_pass") as [Hd|Hd]; [auto|].
    destruct Htype as [?|Hm]; [contradiction|].
    unfold handleSessionsChange. cbn [passType]. rewrite Hm. cbn.
    repeat split; auto. discriminate.
  - cbn. auto.
  - cbn. repeat split; auto. discriminate.
Qed.

(** However the dialog is edited from its default values, the
    remaining sessions are the same number as the total sessions, so a
    pass is always submitted with all its sessions left, and a day
    pass has exactly one session.  The two fields are equal under
    [===] unless they hold NaN, which is what clearing the sessions
    input of a membership leaves in both, and in the price. *)
Theorem form_stays_coherent (es : list Edit) :
  let form := edits es defaultValues in
  remainingSessions form = totalSessions form /\
  (strictEquals (remainingSessions form) (totalSessions form) = true
   <-> totalSessions form <> NaN) /\
  (passType form = "day_pass"%string \/ passType form = "membership"%string) /\
  (passType form = "day_pass"%string -> totalSessions form = Int 1) /\
  (passType form = "membership"%string ->
   let cleared := edit form (TypeSessions NaN) in
   totalSessions cleared = NaN /\
   remainingSessions cleared = NaN /\
   purchasePrice cleared = Number NaN /\
   strictEquals (remainingSessions cleared) (totalSessions cleared) = false).
Proof.
  assert (H : forall form, coherent form -> coherent (edits es form)).
  { induction es as [|e es IH]; intros form Hform; [exact Hform|].
    apply (IH (edit form e)), edit_coherent, Hform. }
  intros form.
  destruct (H defaultValues) as (Hrem & Htype & Hday).
  { cbn. repeat split; auto. discriminate. }
  fold form in Hrem, Htype, Hday.
  split; [exact Hrem|]. split; [rewrite Hrem; apply strictEquals_refl|].
  split; [exact Htype|]. split; [exact Hday|].
  intros Hm cleared. unfold cleared. cbn [edit]. rewrite Hm.
  cbn [String.eqb Ascii.eqb Bool.eqb].
  unfold handleSessionsChange. cbn [passType canonical]. rewrite ?Hm.
  cbn. repeat split.
Qed.
End PassFormFacts.

(** ** WebSocket endpoints *)

Section EndpointFacts.
Import Endpoints.

Lemma stripPrefix_append (p s : string) : stripPrefix p (p ++ s)%string = Some s.
Proof.
  induction p as [|a p IH]; [reflexivity|].
  change (String a p ++ s)%string with (String a (p ++ s)%string).
  cbn [stripPrefix]. now rewrite Ascii.eqb_refl.
Qed.

Lemma stripScheme_http (host : string) :
  stripScheme ("http://" ++ host)%string = host.
Proof.
  unfold stripScheme.
  change (stripPrefix "https://" ("http://" ++ host)%string) with (@None string).
  now rewrite stripPrefix_append.
Qed.

Lemma stripScheme_https (host : string) :
  stripScheme ("https://" ++ host)%string = host.
Proof. unfold stripScheme. now rewrite stripPrefix_append. Qed.

(** The socket URL takes its scheme from the page, never from the API
    base: an [http] and an [https] base with the same host give the
    same URL, [wss] on an [https] page and [ws] on any other; the
    sensors and the alerts socket differ in the path only. *)
Theorem websocket_url_ignores_base_scheme (protocol host : string) :
  let scheme := (if String.eqb protocol "https:" then "wss:" else "ws:")%string in
  WEBSOCKET_SENSORS protocol ("http://" ++ host)%string
    = (scheme ++ "//" ++ host ++ "/ws/sensors/")%string /\
  WEBSOCKET_SENSORS protocol ("https://" ++ host)%string
    = (scheme ++ "//" ++ host ++ "/ws/sensors/")%string /\
  WEBSOCKET_ALERTS protocol ("http://" ++ host)%string
    = (scheme ++ "//" ++ host ++ "/ws/alerts/")%string /\
  WEBSOCKET_ALERTS protocol ("https://" ++ host)%string
    = (scheme ++ "//" ++ host ++ "/ws/alerts/")%string.
Proof.
  unfold WEBSOCKET_SENSORS, WEBSOCKET_ALERTS.
  rewrite stripScheme_http, stripScheme_https. repeat split.
Qed.
End EndpointFacts.


(** ** The further properties at sample inputs *)

Section AtMoreSamples.
Import Samples MoreSamples.


Lemma onmessage_reading_sample :
  fst (Messages.onmessage (Z.eqb 0) parse everyCallback "reading")
  = [Messages.Called Messages.OnSensorReading
       (Messages.JObject [("temperature"%string, Messages.JNumber 365)])].
Proof.
  exact (onmessage_calls_registered (Z.eqb 0) parse everyCallback "reading"
           [("type"%string, Messages.JString "sensor_reading");
            ("data"%string, Messages.JObject [("temperature"%string, Messages.JNumber 365)])]
           Messages.OnSensorReading (fun _ => false) eq_refl eq_refl eq_refl).
Defined.

Lemma onSensorReading_other_room_sample :
  MergeBuffer.onSensorReading tenth fresh liveWindow !! "S"%string
  = liveWindow !! "S"%string.
Proof.
  apply (proj2 (onSensorReading_window tenth fresh liveWindow)).
  discriminate.
Defined.

Lemma mergePoints_most_recent_sample :
  In live ([MergeBuffer.toDataPoint tenth historical] ++ [live]) /\
  ((exists q, In q (MergeBuffer.mergePoints [MergeBuffer.toDataPoint tenth historical] [live])
              /\ MergeBuffer.dp_timestamp q = MergeBuffer.dp_timestamp live) \/
   (length (MergeBuffer.mergePoints [MergeBuffer.toDataPoint tenth historical] [live]) = 50%nat /\
    forall q, In q (MergeBuffer.mergePoints [MergeBuffer.toDataPoint tenth historical] [live]) ->
              MergeBuffer.dp_timestamp live < MergeBuffer.dp_timestamp q)).
Proof.
  assert (H : In live ([MergeBuffer.toDataPoint tenth historical] ++ [live]))
    by (right; now left).
  split; [exact H|].
  exact (proj2 (mergePoints_most_recent [MergeBuffer.toDataPoint tenth historical] [live])
           live H).
Defined.

Lemma mergePoints_order_sample :
  MergeBuffer.mergePoints [live] [later] = MergeBuffer.mergePoints [later; live] [].
Proof.
  apply mergePoints_order_independent.
  - apply perm_swap.
  - apply NoDup_ListNoDup. repeat constructor; cbn; intuition discriminate.
Defined.

Lemma pushed_reading_sample :
  last (MergeBuffer.chartPoints tenth
          (MergeBuffer.onSensorReading tenth fresh liveWindow) "R" [historical])
  = Some later.
Proof.
  apply (pushed_reading_is_last_point tenth fresh liveWindow [historical]).
  - intros h [<-|[]]. cbn. lia.
  - intros w Hw. change (MergeBuffer.roomId fresh) with "R"%string in Hw.
    unfold liveWindow in Hw. rewrite lookup_singleton_eq in Hw.
    destruct Hw as [<-|[]]. cbn. lia.
Defined.

Lemma chart_without_latest_sample :
  SensorCards.chartData tenth (fun _ => ""%string) (fun r : string => r)
    liveWindow emptyEntry = [].
Proof.
  exact (chart_needs_latest_reading tenth (fun _ => ""%string) (fun r : string => r)
           notFound notFound "R"%string emptyEntry liveWindow eq_refl).
Defined.

Lemma dismissAlert_refused_sample :
  In "a2"%string
    (snd (RawFetch.dismissAlert (fun a : string => a) refusing "a1"
            ["a1"%string; "a2"%string])).
Proof.
  destruct (dismissAlert_removes_when_answered (fun a : string => a) refusing "a1"
              ["a1"%string; "a2"%string]) as (_ & _ & H).
  apply (proj1 (H false None eq_refl) "a2"%string).
  split; [right; now left|discriminate].
Defined.

Lemma handlePhoneSearch_offline_sample :
  (10 <= RawFetch.utf16Length (RawFetch.customerPhone typed))%nat /\
  RawFetch.utf16Length (RawFetch.customerPin typed) = 4%nat /\
  RawFetch.currentCustomer
    (snd (RawFetch.handlePhoneSearch "verify_pin" (fun _ => tt) (fun _ => ""%string)
            offline typed)) = None /\
  RawFetch.pinError
    (snd (RawFetch.handlePhoneSearch "verify_pin" (fun _ => tt) (fun _ => ""%string)
            offline typed)) <> ""%string.
Proof.
  assert (H1 : (10 <= RawFetch.utf16Length (RawFetch.customerPhone typed))%nat)
    by (vm_compute; lia).
  assert (H2 : RawFetch.utf16Length (RawFetch.customerPin typed) = 4%nat)
    by reflexivity.
  split; [exact H1|]. split; [exact H2|].
  exact (proj2 (proj2 (proj2 (proj2 (handlePhoneSearch_outcomes "verify_pin"
           (fun _ => tt) (fun _ => ""%string) offline typed))) H1 H2)).
Defined.

Lemma getRemainingCooldown_sample :
  0 < 5400000 /\
  exists hours minutes,
    Rooms.getRemainingCooldown 0 cooling
    = (pretty hours ++ "시간 " ++ pretty minutes ++ "분 남음")%string /\
    0 <= hours /\ 0 <= minutes < 60 /\
    (hours * 60 + minutes) * 60000 <= 5400000 - 0 < (hours * 60 + minutes + 1) * 60000.
Proof.
  assert (H : 0 < 5400000) by lia.
  split; [exact H|].
  exact (proj2 (proj2 (getRemainingCooldown_shows_whole_minutes 0 cooling)
                  5400000 eq_refl eq_refl) H).
Defined.

Lemma room_counts_sample :
  (Rooms.getAvailableRooms twoRooms + Rooms.getOccupiedRooms twoRooms
   = length twoRooms)%nat.
Proof.
  apply (proj2 (proj2 (room_counts_within_total twoRooms))).
  intros room [<-|[<-|[]]]; [now left|now right].
Defined.

Lemma cooldown_sample :
  Rooms.getRemainingCooldown 1000 justCooled = "4시간 0분 남음"%string.
Proof.
  exact (proj1 (proj2 (cooldown_lasts_four_hours stubRequest (fun _ => false)
                         (fun e => e) "rooms" 1000 "R" "cooldown" cachedAvailable)
                  justCooled eq_refl eq_refl)).
Defined.

Lemma current_booking_sample :
  CustomerPage.getCurrentBooking (Some me) today = None.
Proof.
  apply (proj2 (proj2 (current_booking_among_mine (Some me) today))).
  intros b [<-|[]]. discriminate.
Defined.

Lemma room_card_sample :
  exists entries,
    Polling.customerQueryFn (fun r : string => r) sensorsUrl notFound ["R"%string]
    = Polling.Resolved entries /\
    CustomerPage.readingFor entries "R" = @None Z.
Proof.
  destruct (room_card_reads_own_request (fun r : string => r) sensorsUrl
              (@notFound (list Z)) ["R"%string]) as (entries & H1 & _ & H3).
  exists entries. split; [exact H1|].
  exact (H3 "R"%string (or_introl eq_refl)).
Defined.

Lemma membership_price_sample :
  PassForm.passType PassForm.defaultValues = "membership"%string /\
  PassForm.purchasePrice
    (PassForm.handleSessionsChange (JsNumber.Int 50) PassForm.defaultValues)
  = PassForm.Number (JsNumber.Int 7500000).
Proof.
  assert (H : PassForm.passType PassForm.defaultValues = "membership"%string)
    by reflexivity.
  split; [exact H|].
  exact (proj1 (proj2 (membership_price_peaks_at_fifty PassForm.defaultValues H))).
Defined.

(** At 333333333333333 sessions the product is beyond 2^53 and the
    price stored is the nearest double, below 27000 a session. *)
Lemma rounded_price_sample :
  PassForm.purchasePrice
    (PassForm.handleSessionsChange (JsNumber.Int 333333333333333)
       PassForm.defaultValues)
  = PassForm.Number (JsNumber.Int 8999999999999990784) /\
  8999999999999990784 < 27000 * 333333333333333.
Proof. split; [vm_compute; reflexivity|lia]. Qed.

Lemma day_pass_sample :
  PassForm.totalSessions
    (PassForm.edits [PassForm.TypeSessions (JsNumber.Int 20); PassForm.SelectType true]
       PassForm.defaultValues) = JsNumber.Int 1.
Proof.
  apply (proj1 (proj2 (proj2 (proj2 (form_stays_coherent
           [PassForm.TypeSessions (JsNumber.Int 20); PassForm.SelectType true]))))).
  reflexivity.
Defined.
End AtMoreSamples.
